(** * Verification of the cron schedule search (spec.go)

    The schedule is a record of seven big integers used as bit sets; the
    search functions [Next] and [Latest] walk a [time.Time] forward or
    backward field by field.  The development embeds

    - [big.Bit], the one method of math/big the code calls;
    - the part of package time the code calls ([Date], [AddDate], [Add],
      [Truncate], [In] and the field accessors), following the arithmetic of
      the Go runtime on mathematical integers;
    - [eomBits], [dayMatches], [Next] and [Latest] as they are written.

    A location is a table of zone transitions, as the runtime loads it from
    the zone database; [time.UTC] and [time.FixedZone] have no transition,
    and the table of [time.Local] is a parameter of the environment.  The
    offset of an instant is looked up in the table, as [Time.abs] and
    [time.Date] do. *)

From Stdlib Require Import ZArith Lia Bool List.
Import ListNotations.
Open Scope Z_scope.

(** ** math/big *)

Module big.

(** [Int.Bit]: the value of the [i]-th bit of [x], in two's complement
    for a negative [x].  Go panics on a negative index; every call site
    below passes a non-negative one. *)
Definition Bit (x : Z) (i : Z) : Z := if Z.testbit x i then 1 else 0.

End big.

(** ** Fixed-width unsigned arithmetic *)

Definition byte (x : Z) : Z := x mod 2 ^ 8.
Definition uint64 (x : Z) : Z := x mod 2 ^ 64.

(** ** package time *)

(** The zone table of the host's local zone: the offset, in seconds east of
    UTC, in use before the first transition, and the transitions in
    ascending order, each with its instant in Unix seconds and the offset in
    use from then on. *)
Class LocalZone := localZone : Z * list (Z * Z).

Module time.

Inductive Location := UTC | Local | Zone (initial : Z) (tx : list (Z * Z)).

(** [time.FixedZone]: a location that always uses the given offset. *)
Definition FixedZone (offset : Z) : Location := Zone offset [].

(** An instant with nanosecond precision, counted from the Unix epoch, and
    the location its fields are read in. *)
Record Time := mkTime { unixNano : Z; Loc : Location }.

Definition Nanosecond_ := 1.
Definition Second_ := 1000000000.
Definition Minute_ := 60 * Second_.
Definition Hour_ := 60 * Minute_.

Definition secondsPerMinute := 60.
Definition secondsPerHour := 60 * secondsPerMinute.
Definition secondsPerDay := 24 * secondsPerHour.
Definition secondsPerWeek := 7 * secondsPerDay.
Definition daysPer400Years := 365 * 400 + 97.
Definition daysPer100Years := 365 * 100 + 24.
Definition daysPer4Years := 365 * 4 + 1.

(** Seconds from January 1 of year 1, 00:00:00 UTC to the Unix epoch. *)
Definition unixToInternal := (1969 * 365 + 1969 / 4 - 1969 / 100 + 1969 / 400) * secondsPerDay.

(** [time.Time{}]: January 1, year 1, 00:00:00 UTC. *)
Definition zeroTime : Time := mkTime (- unixToInternal * Second_) UTC.

Definition IsZero (t : Time) : bool := unixNano t =? unixNano zeroTime.

Definition Location_ (t : Time) : Location := Loc t.

Definition In (t : Time) (loc : Location) : Time := mkTime (unixNano t) loc.

Definition Add (t : Time) (d : Z) : Time := mkTime (unixNano t + d) (Loc t).

(** Rounds [t] down to a multiple of [d] since the zero time. *)
Definition Truncate (t : Time) (d : Z) : Time :=
  if d <=? 0 then t
  else Add t (- ((unixNano t - unixNano zeroTime) mod d)).

Definition Before (t u : Time) : bool := unixNano t <? unixNano u.
Definition After (t u : Time) : bool := unixNano u <? unixNano t.
Definition Equal (t u : Time) : bool := unixNano t =? unixNano u.

Definition unixSec (t : Time) : Z := unixNano t / Second_.
Definition Nanosecond (t : Time) : Z := unixNano t mod Second_.

Definition isLeap (year : Z) : bool :=
  (Z.rem year 4 =? 0) && (negb (Z.rem year 100 =? 0) || (Z.rem year 400 =? 0)).

(** [daysBefore[m]]: days in a non-leap year before month [m+1]. *)
Definition daysBefore (m : Z) : Z :=
  nth (Z.to_nat m) [0; 31; 59; 90; 120; 151; 181; 212; 243; 273; 304; 334; 365] 0.

(** Days from January 1 of year 1 to January 1 of [year]. *)
Definition daysSinceEpoch (year : Z) : Z :=
  let y := year - 1 in
  let n := y / 400 in
  let y := y - 400 * n in
  let d := daysPer400Years * n in
  let n := y / 100 in
  let y := y - 100 * n in
  let d := d + daysPer100Years * n in
  let n := y / 4 in
  let y := y - 4 * n in
  let d := d + daysPer4Years * n in
  d + 365 * y.

(** The year and the zero-based day of the year of a day count. *)
Definition absYear (days : Z) : Z * Z :=
  let d := days in
  let n := d / daysPer400Years in
  let y := 400 * n in
  let d := d - daysPer400Years * n in
  let n := d / daysPer100Years in
  let n := n - Z.shiftr n 2 in
  let y := y + 100 * n in
  let d := d - daysPer100Years * n in
  let n := d / daysPer4Years in
  let y := y + 4 * n in
  let d := d - daysPer4Years * n in
  let n := d / 365 in
  let n := n - Z.shiftr n 2 in
  let y := y + n in
  let d := d - 365 * n in
  (y + 1, d).

(** Month and day of the month from the year and the day of the year. *)
Definition yearDay (year yday : Z) : Z * Z :=
  let day := yday in
  if isLeap year && (day =? 31 + 29 - 1) then (2, 29)
  else
    let day := if isLeap year && (day >? 31 + 29 - 1) then day - 1 else day in
    let month := day / 31 in
    let end_ := daysBefore (month + 1) in
    if day >=? end_ then (month + 2, day - end_ + 1)
    else (month + 1, day - daysBefore month + 1).

Definition norm (hi lo base : Z) : Z * Z := (hi + lo / base, lo mod base).

(** The bounds the runtime gives to the first and to the last period of a
    zone table. *)
Definition alpha := - 2 ^ 63.
Definition omega := 2 ^ 63 - 1.

(** [Location.lookup] on a table: the offset in use at the instant [sec]
    and the bounds of the period it is in use. *)
Fixpoint lookupTx (offset start : Z) (tx : list (Z * Z)) (sec : Z) : Z * Z * Z :=
  match tx with
  | [] => (offset, start, omega)
  | (when, offset') :: tx' =>
    if sec <? when then (offset, start, when) else lookupTx offset' when tx' sec
  end.

Section Zone.
Context {lz : LocalZone}.

Definition zoneOf (loc : Location) : Z * list (Z * Z) :=
  match loc with
  | UTC => (0, [])
  | Local => localZone
  | Zone initial tx => (initial, tx)
  end.

Definition lookup (loc : Location) (sec : Z) : Z * Z * Z :=
  lookupTx (fst (zoneOf loc)) alpha (snd (zoneOf loc)) sec.

(** The offset in use at the instant [sec]. *)
Definition offsetAt (loc : Location) (sec : Z) : Z := fst (fst (lookup loc sec)).

(** Seconds since January 1 of year 1, 00:00:00, on the clock of the
    instant's location. *)
Definition abs (t : Time) : Z := unixSec t + offsetAt (Loc t) (unixSec t) + unixToInternal.

Definition absDate (t : Time) : Z * Z * Z :=
  let '(year, yday) := absYear (abs t / secondsPerDay) in
  let '(month, day) := yearDay year yday in
  (year, month, day).

Definition Year (t : Time) : Z := fst (absYear (abs t / secondsPerDay)).
Definition Month (t : Time) : Z := snd (fst (absDate t)).
Definition Day (t : Time) : Z := snd (absDate t).
Definition Hour (t : Time) : Z := (abs t mod secondsPerDay) / secondsPerHour.
Definition Minute (t : Time) : Z := (abs t mod secondsPerHour) / secondsPerMinute.
Definition Second (t : Time) : Z := abs t mod secondsPerMinute.

(** January 1 of year 1 is a Monday. *)
Definition Weekday (t : Time) : Z :=
  ((abs t + 1 * secondsPerDay) mod secondsPerWeek) / secondsPerDay.

Definition Date (year month day hour min sec nsec : Z) (loc : Location) : Time :=
  let '(year, m) := norm year (month - 1) 12 in
  let month := m + 1 in
  let '(sec, nsec) := norm sec nsec Second_ in
  let '(min, sec) := norm min sec 60 in
  let '(hour, min) := norm hour min 60 in
  let '(day, hour) := norm day hour 24 in
  let d := daysSinceEpoch year in
  let d := d + daysBefore (month - 1) in
  let d := if isLeap year && (month >=? 3) then d + 1 else d in
  let d := d + (day - 1) in
  let abs := d * secondsPerDay in
  let abs := abs + (hour * secondsPerHour + min * secondsPerMinute + sec) in
  let unix := abs - unixToInternal in
  (* Look for the zone offset of the expected time: the lookup expects UTC,
     so the clock reading is passed first and the result adjusted when it
     falls outside the period found. *)
  let '(offset, start, end_) := lookup loc unix in
  let unix :=
    if negb (offset =? 0) then
      let utc := unix - offset in
      let offset := if (utc <? start) || (utc >=? end_) then offsetAt loc utc else offset in
      unix - offset
    else unix in
  mkTime (unix * Second_ + nsec) loc.

Definition AddDate (t : Time) (years months days : Z) : Time :=
  let '(year, month, day) := absDate t in
  Date (year + years) (month + months) (day + days)
       (Hour t) (Minute t) (Second t) (Nanosecond t) (Loc t).

End Zone.

End time.

Import time.

(** ** The schedule *)

Record SpecSchedule := mkSpec {
  Second : Z; Minute : Z; Hour : Z; Dom : Z; Month : Z; Dow : Z; Year : Z;
  Location : time.Location
}.

Definition maxBits := 160.
Definition minYear := 1970.
Definition maxYear := 2099.

(** The loop heads of [Next] and [Latest]: the label [WRAP] and the six
    [for] loops that follow it. *)
Inductive label := WRAP | YEAR | MONTH | DAY | HOUR | MINUTE | SECOND.

(** What the code does on reaching a loop head: it jumps to a loop head
    with a new state, or it returns. *)
Inductive outcome (St : Type) := Goto (st : St) | Return (r : Time).
Arguments Goto {St} st.
Arguments Return {St} r.

(** Runs a walk for at most [fuel] visits of loop heads; [None] when the
    fuel runs out first. *)
Fixpoint run {St : Type} (step : St -> outcome St) (fuel : nat) (st : St) : option Time :=
  match fuel with
  | O => None
  | S fuel =>
    match step st with
    | Goto st' => run step fuel st'
    | Return r => Some r
    end
  end.

Definition isLocal (loc : time.Location) : bool :=
  match loc with Local => true | _ => false end.

Section Cron.
Context {lz : LocalZone}.

(** The EOM (to EOM - 7) requests are meant to sit in bits 55 - 48 of
    [Dom], the last-weekday requests in bits 55 - 49 of [Dow]. *)
Definition eomBits (s : SpecSchedule) (t : Time) : Z * Z :=
  let bDow := byte (Z.shiftr (big.Bit (Dow s) 0x00FE000000000000) (6 * 8)) in
  if (big.Bit (Dom s) 0x00FF000000000000 =? 0) && (bDow =? 0) then (0, 0)
  else
    let eom := 30 in
    let year := time.Year t in
    let leapYear :=
      if ((Z.rem year 4 =? 0) && negb (Z.rem year 100 =? 0)) || (Z.rem year 400 =? 0)
      then 1 else 0 in
    let m := time.Month t in
    let eom :=
      if (m =? 4) || (m =? 6) || (m =? 9) || (m =? 11) then eom
      else if m =? 2 then byte (28 + leapYear)
      else 31 in
    let dowBits := 0 in
    let dowBits :=
      if bDow >? 0 then
        let lastDayOfWeek :=
          time.Weekday (time.Date (time.Year t) (time.Month t) eom 0 0 0 0 (time.Location_ t)) in
        let bDow :=
          if lastDayOfWeek =? 0 then byte (Z.lor (Z.shiftr (Z.land 0xFC bDow) 1) (Z.shiftl bDow 6))
          else if lastDayOfWeek =? 1 then byte (Z.lor (Z.shiftr (Z.land 0xF8 bDow) 2) (Z.shiftl bDow 5))
          else if lastDayOfWeek =? 2 then byte (Z.lor (Z.shiftr (Z.land 0xF0 bDow) 3) (Z.shiftl bDow 4))
          else if lastDayOfWeek =? 3 then byte (Z.lor (Z.shiftr (Z.land 0xE0 bDow) 4) (Z.shiftl bDow 3))
          else if lastDayOfWeek =? 4 then byte (Z.lor (Z.shiftr (Z.land 0xC0 bDow) 5) (Z.shiftl bDow 2))
          else if lastDayOfWeek =? 5 then byte (Z.lor (Z.shiftr (Z.land 0x80 bDow) 6) (Z.shiftl bDow 1))
          else bDow in
        uint64 (Z.shiftl bDow (6 * 8))
      else dowBits in
    (Z.shiftr (big.Bit (Dom s) 0x00FF000000000000) (55 - eom),
     Z.shiftr dowBits (55 - eom)).

Definition dayMatches (s : SpecSchedule) (t : Time) : bool :=
  let domMatch := big.Bit (Dom s) (time.Day t) >? 0 in
  let dowMatch := big.Bit (Dow s) (time.Weekday t) >? 0 in
  let '(eom, eowd) := eomBits s t in
  let domMatch :=
    if eom >? 0 then domMatch || (Z.land (uint64 (Z.shiftl 1 (time.Day t))) eom >? 0)
    else domMatch in
  let dowMatch :=
    if eowd >? 0 then dowMatch || (Z.land (uint64 (Z.shiftl 1 (time.Day t))) eowd >? 0)
    else dowMatch in
  if (big.Bit (Dom s) maxBits >? 0) || (big.Bit (Dow s) maxBits >? 0)
  then domMatch && dowMatch
  else domMatch || dowMatch.

Section Walk.
Variable s : SpecSchedule.
Variable loc origLocation : time.Location.
Variable yearLimit : Z.

(** [Next] from one loop head to the following one.  The state is the
    loop head, the variable [t] and the flag [added]. *)
Definition nextStep (st : label * Time * bool) : outcome (label * Time * bool) :=
  let '(pc, t, added) := st in
  match pc with
  | WRAP =>
    if (time.Year t >? yearLimit) || (time.Year t >? maxYear) then Return time.zeroTime
    else Goto (YEAR, t, added)
  | YEAR =>
    if (time.Year t <? minYear) || (big.Bit (Year s) (time.Year t - minYear) =? 0) then
      let t := if negb added then time.Date (time.Year t) 1 1 0 0 0 0 loc else t in
      let t := time.AddDate t 1 0 0 in
      if (time.Year t >? yearLimit) || (time.Year t >? maxYear) then Return time.zeroTime
      else Goto (YEAR, t, true)
    else Goto (MONTH, t, added)
  | MONTH =>
    if big.Bit (Month s) (time.Month t) =? 0 then
      let t := if negb added then time.Date (time.Year t) (time.Month t) 1 0 0 0 0 loc else t in
      let t := time.AddDate t 0 1 0 in
      if time.Month t =? 1 then Goto (WRAP, t, true)
      else Goto (MONTH, t, true)
    else Goto (DAY, t, added)
  | DAY =>
    if negb (dayMatches s t) then
      let t :=
        if negb added then time.Date (time.Year t) (time.Month t) (time.Day t) 0 0 0 0 loc
        else t in
      let t := time.AddDate t 0 0 1 in
      let t :=
        if negb (time.Hour t =? 0) then
          if time.Hour t >? 12 then time.Add t ((24 - time.Hour t) * time.Hour_)
          else time.Add t (- time.Hour t * time.Hour_)
        else t in
      if time.Day t =? 1 then Goto (WRAP, t, true)
      else Goto (DAY, t, true)
    else Goto (HOUR, t, added)
  | HOUR =>
    if big.Bit (Hour s) (time.Hour t) =? 0 then
      let t :=
        if negb added
        then time.Date (time.Year t) (time.Month t) (time.Day t) (time.Hour t) 0 0 0 loc
        else t in
      let t := time.Add t (1 * time.Hour_) in
      if time.Hour t =? 0 then Goto (WRAP, t, true)
      else Goto (HOUR, t, true)
    else Goto (MINUTE, t, added)
  | MINUTE =>
    if big.Bit (Minute s) (time.Minute t) =? 0 then
      let t := if negb added then time.Truncate t time.Minute_ else t in
      let t := time.Add t (1 * time.Minute_) in
      if time.Minute t =? 0 then Goto (WRAP, t, true)
      else Goto (MINUTE, t, true)
    else Goto (SECOND, t, added)
  | SECOND =>
    if big.Bit (Second s) (time.Second t) =? 0 then
      let t := if negb added then time.Truncate t time.Second_ else t in
      let t := time.Add t (1 * time.Second_) in
      if time.Second t =? 0 then Goto (WRAP, t, true)
      else Goto (SECOND, t, true)
    else Return (time.In t origLocation)
  end.

(** [Latest] from one loop head to the following one.  The state is the
    loop head and the variable [t]. *)
Definition latestStep (st : label * Time) : outcome (label * Time) :=
  let '(pc, t) := st in
  match pc with
  | WRAP =>
    if (time.Year t <? yearLimit) || (time.Year t <? minYear) then Return time.zeroTime
    else Goto (YEAR, t)
  | YEAR =>
    if (time.Year t >? maxYear) || (big.Bit (Year s) (time.Year t - minYear) =? 0) then
      let t := time.Add (time.Date (time.Year t) 1 1 0 0 0 0 loc) (- time.Second_) in
      if (time.Year t <? yearLimit) || (time.Year t <? minYear) then Return time.zeroTime
      else Goto (YEAR, t)
    else Goto (MONTH, t)
  | MONTH =>
    if big.Bit (Month s) (time.Month t) =? 0 then
      let t :=
        time.Add (time.Date (time.Year t) (time.Month t) 1 0 0 0 0 loc) (- time.Second_) in
      if time.Month t =? 12 then Goto (WRAP, t)
      else Goto (MONTH, t)
    else Goto (DAY, t)
  | DAY =>
    if negb (dayMatches s t) then
      let needWrap := time.Day t =? 1 in
      let t :=
        time.Add (time.Date (time.Year t) (time.Month t) (time.Day t) 0 0 0 0 loc)
                 (- time.Second_) in
      if needWrap then Goto (WRAP, t)
      else Goto (DAY, t)
    else Goto (HOUR, t)
  | HOUR =>
    if big.Bit (Hour s) (time.Hour t) =? 0 then
      let needWrap := time.Hour t =? 0 in
      let t :=
        time.Add (time.Date (time.Year t) (time.Month t) (time.Day t) (time.Hour t) 0 0 0 loc)
                 (- time.Second_) in
      if needWrap then Goto (WRAP, t)
      else Goto (HOUR, t)
    else Goto (MINUTE, t)
  | MINUTE =>
    if big.Bit (Minute s) (time.Minute t) =? 0 then
      let needWrap := time.Minute t =? 0 in
      let t := time.Add (time.Truncate t time.Minute_) (- time.Second_) in
      if needWrap then Goto (WRAP, t)
      else Goto (MINUTE, t)
    else Goto (SECOND, t)
  | SECOND =>
    if big.Bit (Second s) (time.Second t) =? 0 then
      let needWrap := time.Second t =? 0 in
      let t := time.Add (time.Truncate t time.Second_) (- time.Second_) in
      if needWrap then Goto (WRAP, t)
      else Goto (SECOND, t)
    else Return (time.In t origLocation)
  end.

End Walk.

(** The zone the search runs in, and the instant converted to it. *)
Definition searchLoc (s : SpecSchedule) (t : Time) : time.Location :=
  let loc := Location s in
  if isLocal loc then time.Location_ t else loc.

Definition inSchedule (s : SpecSchedule) (t : Time) : Time :=
  if negb (isLocal (Location s)) then time.In t (Location s) else t.

(** The instant the forward search starts at: the upcoming second. *)
Definition nextStart (s : SpecSchedule) (t : Time) : Time :=
  let t := inSchedule s t in
  time.Add t (1 * time.Second_ - time.Nanosecond t * time.Nanosecond_).

(** The instant the backward search starts at: [t] rounded down to the
    second. *)
Definition latestStart (s : SpecSchedule) (t : Time) : Time :=
  time.Truncate (inSchedule s t) time.Second_.

(** [Next] and [Latest], run for [fuel] visits of loop heads. *)
Definition Next (fuel : nat) (s : SpecSchedule) (t : Time) : option Time :=
  let origLocation := time.Location_ t in
  let loc := searchLoc s t in
  let t := nextStart s t in
  let added := false in
  let yearLimit := time.Year t + 5 in
  run (nextStep s loc origLocation yearLimit) fuel (WRAP, t, added).

Definition Latest (fuel : nat) (s : SpecSchedule) (t : Time) : option Time :=
  let origLocation := time.Location_ t in
  let loc := searchLoc s t in
  let t := latestStart s t in
  let yearLimit := time.Year t - 5 in
  run (latestStep s loc origLocation yearLimit) fuel (WRAP, t).

(** The call returns [r]. *)
Definition NextReturns (s : SpecSchedule) (t r : Time) : Prop :=
  exists fuel, Next fuel s t = Some r.

Definition LatestReturns (s : SpecSchedule) (t r : Time) : Prop :=
  exists fuel, Latest fuel s t = Some r.

End Cron.

(** ** Notions used to state and prove the properties *)

Module calendar.

(** Closed form of [time.daysSinceEpoch]. *)
Definition daysBeforeYear (year : Z) : Z :=
  let y := year - 1 in 365 * y + y / 4 - y / 100 + y / 400.

Definition yearLen (year : Z) : Z := if time.isLeap year then 366 else 365.

(** Zero-based day of the year of the first day of month [m]. *)
Definition monthStart (leap : bool) (m : Z) : Z :=
  time.daysBefore (m - 1) + (if leap && (m >=? 3) then 1 else 0).

Definition daysIn (leap : bool) (m : Z) : Z := monthStart leap (m + 1) - monthStart leap m.

Definition validDate (y m d : Z) : Prop :=
  1 <= m <= 12 /\ 1 <= d <= daysIn (time.isLeap y) m.

(** The day count of a calendar date. *)
Definition dayNumber (y m d : Z) : Z :=
  daysBeforeYear y + monthStart (time.isLeap y) m + (d - 1).

(** The calendar date of a day count. *)
Definition civil (D : Z) : Z * Z * Z :=
  let '(y, yd) := time.absYear D in
  let '(m, d) := time.yearDay y yd in (y, m, d).

Definition weekday (D : Z) : Z := (D + 1) mod 7.

(** [time.yearDay] with the leap test taken out. *)
Definition yearDayL (leap : bool) (yday : Z) : Z * Z :=
  let day := yday in
  if leap && (day =? 31 + 29 - 1) then (2, 29)
  else
    let day := if leap && (day >? 31 + 29 - 1) then day - 1 else day in
    let month := day / 31 in
    let end_ := time.daysBefore (month + 1) in
    if day >=? end_ then (month + 2, day - end_ + 1)
    else (month + 1, day - time.daysBefore month + 1).

(** A predicate holds of all of [0 .. n-1]. *)
Fixpoint allBelow (n : nat) (p : Z -> bool) : bool :=
  match n with
  | O => true
  | S k => p (Z.of_nat k) && allBelow k p
  end.

Definition yearDayOk (leap : bool) (yd : Z) : bool :=
  let '(m, d) := yearDayL leap yd in
  (1 <=? m) && (m <=? 12) && (1 <=? d) && (d <=? daysIn leap m)
  && (monthStart leap m + (d - 1) =? yd).

End calendar.

Section Notions.
Context {lz : LocalZone}.

(** The location has no transition: one offset is in use at all times. *)
Definition fixed (loc : time.Location) : Prop := snd (time.zoneOf loc) = [].

Definition baseOffset (loc : time.Location) : Z := fst (time.zoneOf loc).

(** The day count of an instant on the clock of its location. *)
Definition dayOf (t : Time) : Z := time.abs t / 86400.

(** Two bit sets that agree everywhere but on the request bits 48 - 55. *)
Definition sameOutsideRequests (a b : Z) : Prop :=
  forall i, 0 <= i -> ~ (48 <= i <= 55) -> Z.testbit a i = Z.testbit b i.

(** Every field of the schedule accepts the instant, read in its location,
    and its year is one the search may return. *)
Definition satisfies (s : SpecSchedule) (t : Time) : bool :=
  (minYear <=? time.Year t) && (time.Year t <=? maxYear)
  && Z.testbit (Year s) (time.Year t - minYear)
  && Z.testbit (Month s) (time.Month t)
  && dayMatches s t
  && Z.testbit (Hour s) (time.Hour t)
  && Z.testbit (Minute s) (time.Minute t)
  && Z.testbit (Second s) (time.Second t).

(** No instant after [t] satisfies the schedule within the lookahead of
    [Next]: up to five calendar years past the year the search starts in,
    and no later than [maxYear]. *)
Definition noQualifying (s : SpecSchedule) (t : Time) : Prop :=
  forall u, Loc u = searchLoc s t -> time.After u t = true ->
            time.Year u <= time.Year (nextStart s t) + 5 -> satisfies s u = false.

(** The [Year] field has no bit for the year of [t] or a later one. *)
Definition yearsExhausted (s : SpecSchedule) (t : Time) : Prop :=
  forall y, time.Year (inSchedule s t) <= y -> minYear <= y ->
            Z.testbit (Year s) (y - minYear) = false.

(** *** Invariants of the two walks *)

Definition rank (pc : label) : Z :=
  match pc with
  | WRAP => 0 | YEAR => 1 | MONTH => 2 | DAY => 3 | HOUR => 4 | MINUTE => 5 | SECOND => 6
  end.

Section Invariants.
Variable s : SpecSchedule.
Variable loc origLocation : time.Location.
Variable yearLimit : Z.
Variable t0 : Time.

Definition yearBit (t : Time) : Prop :=
  minYear <= time.Year t /\ Z.testbit (Year s) (time.Year t - minYear) = true.

Definition monthBit (t : Time) : Prop := Z.testbit (Month s) (time.Month t) = true.

(** The loops before the loop head [pc] have accepted [t]. *)
Definition passed (pc : label) (t : Time) : Prop :=
  (2 <= rank pc -> yearBit t /\ time.Year t <= maxYear) /\
  (3 <= rank pc -> monthBit t) /\
  (4 <= rank pc -> dayMatches s t = true) /\
  (5 <= rank pc -> Z.testbit (Hour s) (time.Hour t) = true) /\
  (6 <= rank pc -> Z.testbit (Minute s) (time.Minute t) = true).

(** Once a field has been incremented, a field that does not match is at
    its start. *)
Definition aligned (t : Time) : Prop :=
  (yearBit t \/ (time.Month t = 1 /\ time.Day t = 1 /\ time.Hour t = 0)) /\
  (monthBit t \/ (time.Day t = 1 /\ time.Hour t = 0)) /\
  (dayMatches s t = true \/ time.Hour t = 0).

Definition nextInv (st : label * Time * bool) : Prop :=
  let '(pc, t, added) := st in
  Loc t = loc /\ time.Nanosecond t = 0 /\ time.abs t0 <= time.abs t /\
  time.Year t <= yearLimit + 1 /\
  (1 <= rank pc -> time.Year t <= yearLimit /\ time.Year t <= maxYear) /\
  passed pc t /\
  (added = true -> aligned t).

Definition nextMeasure (st : label * Time * bool) : Z :=
  let '(pc, t, _) := st in
  (calendar.daysBeforeYear (yearLimit + 2) * 86400 - time.abs t) * 7 + (6 - rank pc).

(** What [Next] returns: the zero time, or an instant of the walk that
    satisfies the schedule, in the location of the argument. *)
Definition nextPost (r : Time) : Prop :=
  r = time.zeroTime \/
  exists t, r = time.In t origLocation /\ Loc t = loc /\ time.Nanosecond t = 0 /\
            time.abs t0 <= time.abs t /\ time.Year t <= yearLimit /\ satisfies s t = true.

Definition latestInv (st : label * Time) : Prop :=
  let '(pc, t) := st in
  Loc t = loc /\ time.Nanosecond t = 0 /\ time.abs t <= time.abs t0 /\
  yearLimit - 1 <= time.Year t /\
  (1 <= rank pc -> yearLimit <= time.Year t /\ minYear <= time.Year t) /\
  passed pc t.

Definition latestMeasure (st : label * Time) : Z :=
  let '(pc, t) := st in
  (time.abs t - calendar.daysBeforeYear (yearLimit - 1) * 86400) * 7 + (6 - rank pc).

Definition latestPost (r : Time) : Prop :=
  r = time.zeroTime \/
  exists t, r = time.In t origLocation /\ Loc t = loc /\ time.Nanosecond t = 0 /\
            time.abs t <= time.abs t0 /\ yearLimit <= time.Year t /\ satisfies s t = true.

End Invariants.

End Notions.

(** A host whose local zone is UTC. *)
Definition hostUTC : LocalZone := (0, []).

(** *** Schedules as the parser builds them *)

(** The bits [lo .. hi]. *)
Definition getBits (lo hi : Z) : Z := Z.shiftl (Z.ones (hi - lo + 1)) lo.

Definition bit (i : Z) : Z := Z.shiftl 1 i.

(** Every second of every day. *)
Definition everySecond : SpecSchedule :=
  {| Second := getBits 0 59; Minute := getBits 0 59; Hour := getBits 0 23;
     Dom := getBits 1 31; Month := getBits 1 12; Dow := getBits 0 6;
     Year := getBits 0 (maxYear - minYear); Location := Local |}.

(** Midnight of "the last day of February": the request [l] of the
    day-of-month table is bit 55; the day of the week is unrestricted, which
    sets its flag bit. *)
Definition lastDayOfFebruary : SpecSchedule :=
  {| Second := bit 0; Minute := bit 0; Hour := bit 0;
     Dom := bit 55; Month := bit 2; Dow := Z.lor (getBits 0 6) (bit maxBits);
     Year := getBits 0 (maxYear - minYear); Location := Local |}.

(** Midnight of "the last Friday of the month": the request [fril] of the
    day-of-week table is bit 54; the day of the month is unrestricted. *)
Definition lastFriday : SpecSchedule :=
  {| Second := bit 0; Minute := bit 0; Hour := bit 0;
     Dom := Z.lor (getBits 1 31) (bit maxBits); Month := getBits 1 12; Dow := bit 54;
     Year := getBits 0 (maxYear - minYear); Location := Local |}.

(** Every second of minute 31 of every hour. *)
Definition minute31 : SpecSchedule :=
  {| Second := getBits 0 59; Minute := bit 31; Hour := getBits 0 23;
     Dom := getBits 1 31; Month := getBits 1 12; Dow := getBits 0 6;
     Year := getBits 0 (maxYear - minYear); Location := Local |}.

(** Every second of the year 2020 only. *)
Definition only2020 : SpecSchedule :=
  {| Second := getBits 0 59; Minute := getBits 0 59; Hour := getBits 0 23;
     Dom := getBits 1 31; Month := getBits 1 12; Dow := getBits 0 6;
     Year := bit (2020 - minYear); Location := Local |}.

(** Three in the morning, every day. *)
Definition dailyAt3 : SpecSchedule :=
  {| Second := bit 0; Minute := bit 0; Hour := bit 3;
     Dom := getBits 1 31; Month := getBits 1 12; Dow := getBits 0 6;
     Year := getBits 0 (maxYear - minYear); Location := Local |}.

(** Midnight of the first day of every month. *)
Definition firstOfMonth : SpecSchedule :=
  {| Second := bit 0; Minute := bit 0; Hour := bit 0;
     Dom := bit 1; Month := getBits 1 12; Dow := Z.lor (getBits 0 6) (bit maxBits);
     Year := getBits 0 (maxYear - minYear); Location := Local |}.

(** One in the morning, every day. *)
Definition dailyAt1 : SpecSchedule :=
  {| Second := bit 0; Minute := bit 0; Hour := bit 1;
     Dom := getBits 1 31; Month := getBits 1 12; Dow := getBits 0 6;
     Year := getBits 0 (maxYear - minYear); Location := Local |}.

(** Midnight of December 30, 2011. *)
Definition december30of2011 : SpecSchedule :=
  {| Second := bit 0; Minute := bit 0; Hour := bit 0;
     Dom := bit 30; Month := bit 12; Dow := Z.lor (getBits 0 6) (bit maxBits);
     Year := bit (2011 - minYear); Location := Local |}.

(** Every second of hour 23 of the fourth day of every month. *)
Definition fourthAt23 : SpecSchedule :=
  {| Second := getBits 0 59; Minute := getBits 0 59; Hour := bit 23;
     Dom := bit 4; Month := getBits 1 12; Dow := Z.lor (getBits 0 6) (bit maxBits);
     Year := getBits 0 (maxYear - minYear); Location := Local |}.

(** *** Locations of the zone database *)

(** Pacific/Apia in 2011 and 2012: ten hours west of UTC in summer, eleven
    in winter, until the zone moved across the date line at the end of
    December 29, 2011, to fourteen hours east; December 30 did not take
    place. *)
Definition pacificApia : time.Location :=
  Zone (-36000)
       [(1301752800, -39600); (1316872800, -36000); (1325239200, 50400);
        (1333202400, 46800)].

(** Europe/Berlin in 2023: one hour east of UTC, two in summer; the clock
    went back from 03:00 to 02:00 on October 29. *)
Definition europeBerlin : time.Location :=
  Zone 3600 [(1679792400, 7200); (1698541200, 3600); (1711846800, 7200)].

(** America/Sao_Paulo in 2018: three hours west of UTC, two in summer; the
    clock went from midnight to 01:00 on November 4. *)
Definition americaSaoPaulo : time.Location :=
  Zone (-7200) [(1518919200, -10800); (1541300400, -7200); (1550368800, -10800)].

(** *** Walks that do not return *)

(** The state a walk is in after [n] visits of loop heads; [None] when it
    has returned before. *)
Fixpoint advance {St : Type} (step : St -> outcome St) (n : nat) (st : St) : option St :=
  match n with
  | O => Some st
  | S n =>
    match step st with
    | Goto st' => advance step n st'
    | Return _ => None
    end
  end.

(** ** The calendar of package time *)

Module calendar_facts.
Import calendar.

Lemma rem0_mod0 a b : 0 < b -> (Z.rem a b =? 0) = (a mod b =? 0).
Proof.
  intros Hb.
  destruct (Z.eqb_spec (Z.rem a b) 0) as [H|H];
    destruct (Z.eqb_spec (a mod b) 0) as [H'|H']; try reflexivity; exfalso.
  - apply H'. apply Z.rem_divide in H; [|lia]. apply Z.mod_divide; [lia|exact H].
  - apply H. apply Z.mod_divide in H'; [|lia]. apply Z.rem_divide; [lia|exact H'].
Qed.

Lemma isLeap_mod y :
  isLeap y = ((y mod 4 =? 0) && (negb (y mod 100 =? 0) || (y mod 400 =? 0))).
Proof. unfold isLeap. rewrite !rem0_mod0 by lia. reflexivity. Qed.

Lemma daysSinceEpoch_closed y : daysSinceEpoch y = daysBeforeYear y.
Proof.
  unfold daysSinceEpoch, daysBeforeYear, daysPer400Years, daysPer100Years, daysPer4Years.
  cbv zeta. Z.div_mod_to_equations; lia.
Qed.

Lemma yearLen_bounds y : 365 <= yearLen y <= 366.
Proof. unfold yearLen. destruct (isLeap y); lia. Qed.

Lemma daysBeforeYear_succ y : daysBeforeYear (y + 1) = daysBeforeYear y + yearLen y.
Proof.
  unfold daysBeforeYear, yearLen. rewrite isLeap_mod. cbv zeta.
  replace (y + 1 - 1) with y by lia.
  destruct (Z.eqb_spec (y mod 4) 0), (Z.eqb_spec (y mod 100) 0),
    (Z.eqb_spec (y mod 400) 0); cbn [andb orb negb]; Z.div_mod_to_equations; lia.
Qed.

Lemma daysBeforeYear_pred y : daysBeforeYear (y - 1) = daysBeforeYear y - yearLen (y - 1).
Proof. pose proof (daysBeforeYear_succ (y - 1)) as H. replace (y - 1 + 1) with y in H by lia. lia. Qed.

(** Years are at least 365 days apart. *)
Lemma daysBeforeYear_gap y k : 0 <= k -> daysBeforeYear y + 365 * k <= daysBeforeYear (y + k).
Proof.
  intros Hk. revert k Hk. apply natlike_ind.
  - replace (y + 0) with y by lia. lia.
  - intros k Hk IH. replace (y + Z.succ k) with (y + k + 1) by lia.
    rewrite daysBeforeYear_succ. pose proof (yearLen_bounds (y + k)). lia.
Qed.

Lemma daysBeforeYear_lt y y' : y < y' -> daysBeforeYear y + yearLen y <= daysBeforeYear y'.
Proof.
  intros H. pose proof (daysBeforeYear_gap (y + 1) (y' - y - 1) ltac:(lia)) as G.
  replace (y + 1 + (y' - y - 1)) with y' in G by lia.
  rewrite daysBeforeYear_succ in G. lia.
Qed.

Lemma daysBeforeYear_le y y' : y <= y' -> daysBeforeYear y <= daysBeforeYear y'.
Proof.
  intros H. destruct (Z.eq_dec y y') as [->|N]; [lia|].
  pose proof (daysBeforeYear_lt y y' ltac:(lia)). pose proof (yearLen_bounds y). lia.
Qed.

Lemma absYear_spec d :
  d = daysBeforeYear (fst (absYear d)) + snd (absYear d) /\
  0 <= snd (absYear d) < yearLen (fst (absYear d)).
Proof.
  unfold absYear, daysBeforeYear, yearLen. rewrite isLeap_mod.
  rewrite !Z.shiftr_div_pow2 by lia. change (2 ^ 2) with 4.
  unfold daysPer400Years, daysPer100Years, daysPer4Years.
  cbv zeta. cbn [fst snd].
  change (365 * 400 + 97) with 146097. change (365 * 100 + 24) with 36524.
  change (365 * 4 + 1) with 1461.
  set (n1 := d / 146097).
  set (d1 := d - 146097 * n1).
  set (n2 := d1 / 36524).
  set (n2' := n2 - n2 / 4).
  set (d2 := d1 - 36524 * n2').
  set (n3 := d2 / 1461).
  set (d3 := d2 - 1461 * n3).
  set (n4 := d3 / 365).
  set (n4' := n4 - n4 / 4).
  set (d4 := d3 - 365 * n4').
  set (y := 400 * n1 + 100 * n2' + 4 * n3 + n4' + 1).
  replace (y - 1) with (400 * n1 + 100 * n2' + 4 * n3 + n4') by (unfold y; lia).
  assert (H1 : 0 <= d1 < 146097) by (unfold d1, n1; Z.div_mod_to_equations; lia).
  assert (H2 : 0 <= n2 <= 4) by (unfold n2; Z.div_mod_to_equations; lia).
  assert (H2' : 0 <= n2' <= 3 /\ (n2 = 4 -> n2' = 3) /\ (n2 < 4 -> n2' = n2))
    by (unfold n2'; Z.div_mod_to_equations; lia).
  assert (H3 : 0 <= d2 < 36525 /\ (d2 = 36524 -> n2' = 3))
    by (unfold d2; unfold n2 in *; Z.div_mod_to_equations; lia).
  assert (H4 : 0 <= n3 <= 24) by (unfold n3; Z.div_mod_to_equations; lia).
  assert (H5 : 0 <= d3 < 1461 /\ (n3 = 24 -> d3 = 1460 -> d2 = 36524))
    by (unfold d3, n3; Z.div_mod_to_equations; lia).
  assert (H6 : 0 <= n4 <= 4 /\ (n4 = 4 -> d3 = 1460))
    by (unfold n4; Z.div_mod_to_equations; lia).
  assert (H6' : 0 <= n4' <= 3 /\ (n4 = 4 -> n4' = 3) /\ (n4 < 4 -> n4' = n4))
    by (unfold n4'; Z.div_mod_to_equations; lia).
  assert (H7 : 0 <= d4 < 366 /\ (d4 = 365 -> n4' = 3 /\ d3 = 1460))
    by (unfold d4; unfold n4 in *; Z.div_mod_to_equations; lia).
  assert (E400 : (400 * n1 + 100 * n2' + 4 * n3 + n4') / 400 = n1)
    by (Z.div_mod_to_equations; lia).
  assert (E100 : (400 * n1 + 100 * n2' + 4 * n3 + n4') / 100 = 4 * n1 + n2')
    by (Z.div_mod_to_equations; lia).
  assert (E4 : (400 * n1 + 100 * n2' + 4 * n3 + n4') / 4 = 100 * n1 + 25 * n2' + n3)
    by (Z.div_mod_to_equations; lia).
  rewrite E400, E100, E4.
  split.
  - unfold d4, d3, d2, d1. lia.
  - assert (M4 : y mod 4 = (n4' + 1) mod 4) by (unfold y; Z.div_mod_to_equations; lia).
    assert (M100 : y mod 100 = (4 * n3 + n4' + 1) mod 100)
      by (unfold y; Z.div_mod_to_equations; lia).
    assert (M400 : y mod 400 = (100 * n2' + 4 * n3 + n4' + 1) mod 400)
      by (unfold y; Z.div_mod_to_equations; lia).
    destruct (Z.eqb_spec (y mod 4) 0), (Z.eqb_spec (y mod 100) 0),
      (Z.eqb_spec (y mod 400) 0); cbn [andb orb negb]; try lia.
    all: Z.div_mod_to_equations; lia.
Qed.

(** The year of a day count is the one whose days contain it. *)
Lemma absYear_unique d y :
  daysBeforeYear y <= d < daysBeforeYear (y + 1) -> absYear d = (y, d - daysBeforeYear y).
Proof.
  intros H. destruct (absYear_spec d) as [E R].
  destruct (absYear d) as [y' yd] eqn:A. cbn [fst snd] in *.
  assert (y' = y).
  { destruct (Z.lt_trichotomy y' y) as [L|[L|L]]; [exfalso| exact L |exfalso].
    - pose proof (daysBeforeYear_lt y' y L). lia.
    - pose proof (daysBeforeYear_lt y y' L). rewrite daysBeforeYear_succ in H. lia. }
  subst y'. f_equal. lia.
Qed.

Lemma allBelow_spec n p :
  allBelow n p = true -> forall z, 0 <= z < Z.of_nat n -> p z = true.
Proof.
  induction n as [|k IH]; cbn [allBelow]; intros H z Hz; [lia|].
  apply andb_true_iff in H. destruct H as [Hk Hr].
  destruct (Z.eq_dec z (Z.of_nat k)) as [->|N]; [exact Hk|].
  apply IH; [exact Hr|lia].
Qed.

Lemma yearDay_yearDayL y yd : yearDay y yd = yearDayL (isLeap y) yd.
Proof. reflexivity. Qed.

Lemma yearDayL_ok (leap : bool) yd :
  0 <= yd < (if leap then 366 else 365) -> yearDayOk leap yd = true.
Proof.
  intros H. destruct leap.
  - apply (allBelow_spec 366 (yearDayOk true)); [vm_compute; reflexivity | lia].
  - apply (allBelow_spec 365 (yearDayOk false)); [vm_compute; reflexivity | lia].
Qed.

Lemma yearDayL_spec (leap : bool) yd m d :
  0 <= yd < (if leap then 366 else 365) -> yearDayL leap yd = (m, d) ->
  1 <= m <= 12 /\ 1 <= d <= daysIn leap m /\ monthStart leap m + (d - 1) = yd.
Proof.
  intros H E. pose proof (yearDayL_ok leap yd H) as K. unfold yearDayOk in K.
  rewrite E in K. repeat (apply andb_true_iff in K; destruct K as [K ?]). lia.
Qed.

Lemma month_cases m : 1 <= m <= 12 ->
  m = 1 \/ m = 2 \/ m = 3 \/ m = 4 \/ m = 5 \/ m = 6 \/ m = 7 \/ m = 8 \/ m = 9 \/
  m = 10 \/ m = 11 \/ m = 12.
Proof. lia. Qed.

Ltac month_split H :=
  apply month_cases in H; repeat (destruct H as [H|H]); subst.

Lemma monthStart_1 leap : monthStart leap 1 = 0.
Proof. destruct leap; reflexivity. Qed.

Lemma monthStart_13 leap : monthStart leap 13 = if leap then 366 else 365.
Proof. destruct leap; reflexivity. Qed.

Lemma daysIn_bounds leap m : 1 <= m <= 12 -> 28 <= daysIn leap m <= 31.
Proof. intros H. month_split H; destruct leap; vm_compute; split; discriminate. Qed.

Lemma monthStart_succ leap m : monthStart leap (m + 1) = monthStart leap m + daysIn leap m.
Proof. unfold daysIn. lia. Qed.

Lemma monthStart_mono leap m m' :
  1 <= m -> m < m' -> m' <= 13 -> monthStart leap m + daysIn leap m <= monthStart leap m'.
Proof.
  intros H1 H2 H3. rewrite <- monthStart_succ.
  assert (Hm : 1 <= m <= 12) by lia.
  remember (m' - 1) as k eqn:Ek.
  assert (Hk : 1 <= k <= 12) by lia.
  replace m' with (k + 1) in * by lia. clear Ek.
  month_split Hm; month_split Hk; try lia; destruct leap; vm_compute; discriminate.
Qed.

Lemma monthStart_range leap m :
  1 <= m <= 12 -> 0 <= monthStart leap m /\
  monthStart leap m + daysIn leap m <= (if leap then 366 else 365).
Proof.
  intros H. rewrite <- monthStart_succ.
  month_split H; destruct leap; vm_compute; split; discriminate.
Qed.

Lemma yearDayL_inv leap m d :
  1 <= m <= 12 -> 1 <= d <= daysIn leap m ->
  yearDayL leap (monthStart leap m + (d - 1)) = (m, d).
Proof.
  intros Hm Hd. pose proof (monthStart_range leap m Hm) as R.
  destruct (yearDayL leap (monthStart leap m + (d - 1))) as [m' d'] eqn:E.
  apply yearDayL_spec in E; [|lia]. destruct E as (Hm' & Hd' & E).
  assert (m' = m).
  { destruct (Z.lt_trichotomy m' m) as [L|[L|L]]; [exfalso| exact L |exfalso].
    - pose proof (monthStart_mono leap m' m ltac:(lia) L ltac:(lia)). lia.
    - pose proof (monthStart_mono leap m m' ltac:(lia) L ltac:(lia)). lia. }
  subst m'. f_equal. lia.
Qed.

Lemma civil_spec D y m d :
  civil D = (y, m, d) -> validDate y m d /\ dayNumber y m d = D.
Proof.
  unfold civil. destruct (absYear_spec D) as [E R].
  destruct (absYear D) as [y' yd]. cbn [fst snd] in *.
  rewrite yearDay_yearDayL. destruct (yearDayL (isLeap y') yd) as [m' d'] eqn:Y.
  intros X. injection X as -> -> ->.
  apply yearDayL_spec in Y; [|unfold yearLen in R; exact R].
  unfold validDate, dayNumber. split; [tauto|lia].
Qed.

Lemma civil_dayNumber y m d : validDate y m d -> civil (dayNumber y m d) = (y, m, d).
Proof.
  intros [Hm Hd]. unfold civil, dayNumber.
  pose proof (monthStart_range (isLeap y) m Hm) as R.
  rewrite (absYear_unique _ y).
  2:{ rewrite daysBeforeYear_succ. unfold yearLen. lia. }
  rewrite yearDay_yearDayL.
  replace (daysBeforeYear y + monthStart (isLeap y) m + (d - 1) - daysBeforeYear y)
    with (monthStart (isLeap y) m + (d - 1)) by lia.
  rewrite yearDayL_inv by assumption. reflexivity.
Qed.

End calendar_facts.

(** ** Instants and their fields *)

Section TimeFacts.
Context {lz : LocalZone}.
Import calendar calendar_facts.

Lemma absDate_civil t : time.absDate t = civil (dayOf t).
Proof. reflexivity. Qed.

Lemma Year_civil t : time.Year t = fst (fst (civil (dayOf t))).
Proof.
  unfold time.Year, civil, dayOf. change secondsPerDay with 86400.
  destruct (absYear (time.abs t / 86400)) as [y yd]. destruct (yearDay y yd). reflexivity.
Qed.

Lemma civil_fields t :
  civil (dayOf t) = (time.Year t, time.Month t, time.Day t).
Proof.
  rewrite Year_civil. unfold time.Month, time.Day. rewrite absDate_civil.
  destruct (civil (dayOf t)) as [[y m] d]. reflexivity.
Qed.

Lemma fields_valid t : validDate (time.Year t) (time.Month t) (time.Day t).
Proof. apply (civil_spec (dayOf t)). apply civil_fields. Qed.

Lemma fields_dayNumber t : dayNumber (time.Year t) (time.Month t) (time.Day t) = dayOf t.
Proof. apply (civil_spec (dayOf t)). apply civil_fields. Qed.

Lemma Month_range t : 1 <= time.Month t <= 12.
Proof. apply fields_valid. Qed.

Lemma Day_range t : 1 <= time.Day t <= 31.
Proof.
  destruct (fields_valid t) as [Hm Hd].
  pose proof (daysIn_bounds (isLeap (time.Year t)) _ Hm). lia.
Qed.

Lemma Weekday_weekday t : time.Weekday t = weekday (dayOf t).
Proof.
  unfold time.Weekday, weekday, dayOf, secondsPerWeek, secondsPerDay, secondsPerHour,
    secondsPerMinute.
  Z.div_mod_to_equations; lia.
Qed.

Lemma Weekday_range t : 0 <= time.Weekday t <= 6.
Proof. rewrite Weekday_weekday. unfold weekday. Z.div_mod_to_equations; lia. Qed.

Lemma Hour_range t : 0 <= time.Hour t <= 23.
Proof.
  unfold time.Hour, secondsPerDay, secondsPerHour, secondsPerMinute.
  Z.div_mod_to_equations; lia.
Qed.

Lemma Minute_range t : 0 <= time.Minute t <= 59.
Proof.
  unfold time.Minute, secondsPerHour, secondsPerMinute. Z.div_mod_to_equations; lia.
Qed.

Lemma Second_range t : 0 <= time.Second t <= 59.
Proof. unfold time.Second, secondsPerMinute. Z.div_mod_to_equations; lia. Qed.

Lemma Nanosecond_range t : 0 <= time.Nanosecond t < 1000000000.
Proof. unfold time.Nanosecond, Second_. Z.div_mod_to_equations; lia. Qed.

(** The clock fields make up the second of the day. *)
Lemma clock_abs t :
  time.abs t = dayOf t * 86400 + time.Hour t * 3600 + time.Minute t * 60 + time.Second t.
Proof.
  unfold dayOf, time.Hour, time.Minute, time.Second, secondsPerDay, secondsPerHour,
    secondsPerMinute.
  Z.div_mod_to_equations; lia.
Qed.

End TimeFacts.

(** ** The day matcher *)

Section DayFacts.
Context {lz : LocalZone}.

Lemma Bit_cases x i : big.Bit x i = 0 \/ big.Bit x i = 1.
Proof. unfold big.Bit. destruct (Z.testbit x i); auto. Qed.

Lemma Bit_gtb x i : (big.Bit x i >? 0) = Z.testbit x i.
Proof. unfold big.Bit. destruct (Z.testbit x i); reflexivity. Qed.

Lemma Bit_eqb x i : (big.Bit x i =? 0) = negb (Z.testbit x i).
Proof. unfold big.Bit. destruct (Z.testbit x i); reflexivity. Qed.

(** A bit looked up above the size of a non-negative integer is clear. *)
Lemma Bit_above x i : 0 <= x -> Z.log2 x < i -> big.Bit x i = 0.
Proof. intros Hx Hi. unfold big.Bit. rewrite Z.bits_above_log2 by lia. reflexivity. Qed.

(** [Bit] yields 0 or 1, so the packed week-day byte is always 0. *)
Lemma bDow_zero x i : byte (Z.shiftr (big.Bit x i) (6 * 8)) = 0.
Proof. destruct (Bit_cases x i) as [-> | ->]; reflexivity. Qed.

(** Whatever the schedule and the date, nothing is projected. *)
Lemma eomBits_zero s t : eomBits s t = (0, 0).
Proof.
  unfold eomBits. rewrite bDow_zero. cbv zeta.
  destruct (Bit_cases (Dom s) 0x00FF000000000000) as [E | E]; rewrite E; [reflexivity|].
  change ((1 =? 0) && (0 =? 0)) with false. change (0 >? 0) with false. cbv iota.
  f_equal.
  - destruct ((time.Month t =? 4) || (time.Month t =? 6) || (time.Month t =? 9)
              || (time.Month t =? 11)); [reflexivity|].
    destruct (time.Month t =? 2); [|reflexivity].
    destruct ((Z.rem (time.Year t) 4 =? 0) && negb (Z.rem (time.Year t) 100 =? 0)
              || (Z.rem (time.Year t) 400 =? 0)); reflexivity.
  - apply Z.shiftr_0_l.
Qed.

Lemma land_pow2 e d :
  0 <= d -> Z.land (2 ^ d) e = if Z.testbit e d then 2 ^ d else 0.
Proof.
  intros Hd. apply Z.bits_inj'. intros n Hn. rewrite Z.land_spec, Z.pow2_bits_eqb by lia.
  destruct (Z.eqb_spec d n) as [->|N].
  - destruct (Z.testbit e n) eqn:T; cbn [andb].
    + rewrite Z.pow2_bits_true by lia. reflexivity.
    + rewrite Z.bits_0. reflexivity.
  - cbn [andb]. destruct (Z.testbit e d).
    + rewrite Z.pow2_bits_false by lia. reflexivity.
    + rewrite Z.bits_0. reflexivity.
Qed.

(** The test [1<<day & set > 0], guarded by [set > 0], is membership of
    [day] in the set. *)
Lemma projected_member e d (b : bool) :
  0 <= e -> 0 <= d < 64 ->
  (if e >? 0 then b || (Z.land (uint64 (Z.shiftl 1 d)) e >? 0) else b) = b || Z.testbit e d.
Proof.
  intros He Hd.
  assert (P : uint64 (Z.shiftl 1 d) = 2 ^ d).
  { unfold uint64. rewrite Z.shiftl_1_l. apply Z.mod_small. split; [lia|].
    apply Z.pow_lt_mono_r; lia. }
  rewrite P, land_pow2 by lia.
  destruct (Z.gtb_spec e 0) as [G|G].
  - destruct (Z.testbit e d); [|reflexivity].
    assert (0 < 2 ^ d) by (apply Z.pow_pos_nonneg; lia).
    destruct (Z.gtb_spec (2 ^ d) 0); [reflexivity|lia].
  - destruct (Z.testbit e d) eqn:T; [|rewrite orb_false_r; reflexivity].
    exfalso. assert (e = 0) as -> by lia. rewrite Z.bits_0 in T. discriminate.
Qed.

(** [dayMatches] in terms of the bits it reads. *)
Lemma dayMatches_bits s t :
  dayMatches s t =
    (let domMatch :=
       Z.testbit (Dom s) (time.Day t) || Z.testbit (fst (eomBits s t)) (time.Day t) in
     let dowMatch :=
       Z.testbit (Dow s) (time.Weekday t) || Z.testbit (snd (eomBits s t)) (time.Day t) in
     if Z.testbit (Dom s) maxBits || Z.testbit (Dow s) maxBits
     then domMatch && dowMatch else domMatch || dowMatch).
Proof.
  unfold dayMatches. pose proof (Day_range t) as Hd.
  assert (N : 0 <= fst (eomBits s t) /\ 0 <= snd (eomBits s t))
    by (rewrite eomBits_zero; cbn; lia).
  destruct (eomBits s t) as [eom eowd]. cbn [fst snd] in *. cbv zeta.
  rewrite !projected_member by lia. rewrite !Bit_gtb. reflexivity.
Qed.

(** With nothing projected, only the plain bits and the flag count. *)
Lemma dayMatches_plain s t :
  dayMatches s t =
    (let domMatch := Z.testbit (Dom s) (time.Day t) in
     let dowMatch := Z.testbit (Dow s) (time.Weekday t) in
     if Z.testbit (Dom s) maxBits || Z.testbit (Dow s) maxBits
     then domMatch && dowMatch else domMatch || dowMatch).
Proof.
  rewrite dayMatches_bits, eomBits_zero. cbn [fst snd]. cbv zeta.
  rewrite Z.bits_0, !orb_false_r. reflexivity.
Qed.

(** The verdict is a property of the date alone. *)
Lemma dayMatches_dayOf s t u : dayOf t = dayOf u -> dayMatches s t = dayMatches s u.
Proof.
  intros E. rewrite !dayMatches_plain, !Weekday_weekday. unfold time.Day.
  rewrite !absDate_civil, E. reflexivity.
Qed.

End DayFacts.

(** ** The operations of package time on the local clock *)

Section Operations.
Context {lz : LocalZone}.
Import calendar calendar_facts.

Lemma unixToInternal_val : unixToInternal = 62135596800.
Proof. reflexivity. Qed.

Lemma Second_val : Second_ = 1000000000.
Proof. reflexivity. Qed.

Lemma mkTime_whole u n loc :
  0 <= n < 1000000000 ->
  time.unixSec (mkTime (u * Second_ + n) loc) = u /\
  time.Nanosecond (mkTime (u * Second_ + n) loc) = n.
Proof.
  intros H. unfold time.unixSec, time.Nanosecond. cbn [unixNano]. rewrite Second_val.
  Z.div_mod_to_equations; lia.
Qed.

Lemma Loc_Add t d : Loc (time.Add t d) = Loc t.
Proof. reflexivity. Qed.

(** In a location without transitions the lookup finds its one offset. *)
Lemma lookup_fixed loc sec :
  fixed loc -> time.lookup loc sec = (baseOffset loc, time.alpha, time.omega).
Proof. unfold fixed, time.lookup, baseOffset. intros ->. reflexivity. Qed.

Lemma abs_fixed t :
  fixed (Loc t) -> time.abs t = time.unixSec t + baseOffset (Loc t) + unixToInternal.
Proof. intros F. unfold time.abs, time.offsetAt. rewrite (lookup_fixed _ _ F). reflexivity. Qed.

Lemma fixed_UTC : fixed UTC.
Proof. reflexivity. Qed.

Lemma fixed_FixedZone offset : fixed (time.FixedZone offset).
Proof. reflexivity. Qed.

Lemma abs_Add t k :
  fixed (Loc t) -> time.abs (time.Add t (k * Second_)) = time.abs t + k.
Proof.
  intros F. rewrite !abs_fixed by exact F.
  unfold time.unixSec, time.Add. cbn [unixNano Loc]. rewrite Second_val.
  Z.div_mod_to_equations; lia.
Qed.

Lemma Nanosecond_Add t k : time.Nanosecond (time.Add t (k * Second_)) = time.Nanosecond t.
Proof.
  unfold time.Nanosecond, time.Add. cbn [unixNano]. rewrite Second_val.
  Z.div_mod_to_equations; lia.
Qed.

(** A whole-second instant is its location and its local clock reading. *)
Lemma unixNano_whole t :
  fixed (Loc t) -> time.Nanosecond t = 0 ->
  unixNano t = (time.abs t - baseOffset (Loc t) - unixToInternal) * Second_.
Proof.
  intros F. rewrite (abs_fixed t F).
  unfold time.Nanosecond, time.unixSec. rewrite Second_val. intros H.
  Z.div_mod_to_equations; lia.
Qed.

Lemma Truncate_Second t : time.Nanosecond t = 0 -> time.Truncate t Second_ = t.
Proof.
  intros H. unfold time.Truncate. change (Second_ <=? 0) with false. cbv iota.
  unfold time.Add, zeroTime. cbn [unixNano]. destruct t as [n l]. cbn [unixNano Loc].
  f_equal. unfold time.Nanosecond in H. cbn [unixNano] in H.
  rewrite unixToInternal_val, Second_val in *. Z.div_mod_to_equations; lia.
Qed.

(** Rounding down to the minute moves back by less than a minute and stays
    on a whole second. *)
Lemma Truncate_Minute t :
  fixed (Loc t) -> time.Nanosecond t = 0 ->
  Loc (time.Truncate t Minute_) = Loc t /\
  time.Nanosecond (time.Truncate t Minute_) = 0 /\
  time.abs t - 60 < time.abs (time.Truncate t Minute_) <= time.abs t.
Proof.
  intros F H.
  assert (L : Loc (time.Truncate t Minute_) = Loc t) by reflexivity.
  split; [exact L|]. rewrite (abs_fixed t F), abs_fixed by (rewrite L; exact F). rewrite L.
  unfold time.Truncate. change (Minute_ <=? 0) with false. cbv iota.
  unfold time.Add, zeroTime, time.unixSec, time.Nanosecond in *.
  cbn [unixNano Loc] in *. unfold Minute_. rewrite unixToInternal_val, Second_val in *.
  Z.div_mod_to_equations; lia.
Qed.

Lemma norm_small hi lo base : 0 <= lo < base -> time.norm hi lo base = (hi, lo).
Proof.
  intros H. unfold time.norm. rewrite Z.div_small, Z.mod_small by lia. f_equal. lia.
Qed.

(** [Date] on a month within the year and a clock reading within the day;
    the day may lie outside the month. *)
Lemma Date_abs y m d h mi sec ns loc :
  fixed loc ->
  1 <= m <= 12 -> 0 <= h < 24 -> 0 <= mi < 60 -> 0 <= sec < 60 -> 0 <= ns < 1000000000 ->
  time.abs (time.Date y m d h mi sec ns loc)
    = dayNumber y m d * 86400 + h * 3600 + mi * 60 + sec /\
  time.Nanosecond (time.Date y m d h mi sec ns loc) = ns /\
  Loc (time.Date y m d h mi sec ns loc) = loc.
Proof.
  intros F Hm Hh Hmi Hs Hns. unfold time.Date.
  rewrite (norm_small y (m - 1) 12) by lia.
  rewrite (norm_small sec ns) by (rewrite Second_val; lia).
  rewrite (norm_small mi sec), (norm_small h mi), (norm_small d h) by lia.
  cbv zeta. rewrite daysSinceEpoch_closed.
  replace (m - 1 + 1) with m by lia.
  unfold time.offsetAt. rewrite !(lookup_fixed loc _ F). cbn [fst].
  match goal with |- context [mkTime (?u * Second_ + ns) loc] =>
    assert (E : u = (dayNumber y m d * 86400 + h * 3600 + mi * 60 + sec)
                    - unixToInternal - baseOffset loc)
  end.
  { unfold dayNumber, monthStart, secondsPerDay, secondsPerHour, secondsPerMinute.
    destruct (baseOffset loc =? 0) eqn:Z0; cbn [negb].
    - apply Z.eqb_eq in Z0. destruct (isLeap y && (m >=? 3)); lia.
    - destruct ((_ <? time.alpha) || (_ >=? time.omega));
        destruct (isLeap y && (m >=? 3)); lia. }
  rewrite E.
  match goal with |- context [mkTime (?u * Second_ + ns) loc] =>
    destruct (mkTime_whole u ns loc Hns) as [U N]
  end.
  rewrite abs_fixed by exact F. cbn [Loc]. rewrite U, N.
  split; [lia|split; reflexivity].
Qed.

(** Month 13 is January of the next year. *)
Lemma Date_month13 y d h mi sec ns loc :
  time.Date y 13 d h mi sec ns loc = time.Date (y + 1) 1 d h mi sec ns loc.
Proof.
  unfold time.Date, time.norm. change ((13 - 1) / 12) with 1. change ((13 - 1) mod 12) with 0.
  change ((1 - 1) / 12) with 0. change ((1 - 1) mod 12) with 0.
  replace (y + 1 + 0) with (y + 1) by lia. reflexivity.
Qed.

Lemma dayOf_clock D h mi sec a :
  0 <= h < 24 -> 0 <= mi < 60 -> 0 <= sec < 60 ->
  a = D * 86400 + h * 3600 + mi * 60 + sec ->
  a / 86400 = D /\ (a mod 86400) / 3600 = h /\ (a mod 3600) / 60 = mi /\ a mod 60 = sec.
Proof. intros. subst a. Z.div_mod_to_equations; lia. Qed.

(** The fields of a [Date] built from a valid date and clock reading. *)
Lemma Date_fields y m d h mi sec loc :
  fixed loc -> validDate y m d -> 0 <= h < 24 -> 0 <= mi < 60 -> 0 <= sec < 60 ->
  let t := time.Date y m d h mi sec 0 loc in
  dayOf t = dayNumber y m d /\
  time.Year t = y /\ time.Month t = m /\ time.Day t = d /\
  time.Hour t = h /\ time.Minute t = mi /\ time.Second t = sec.
Proof.
  intros F V Hh Hmi Hs t.
  destruct (Date_abs y m d h mi sec 0 loc F) as (A & _ & _); try lia; [apply V|].
  fold t in A.
  destruct (dayOf_clock _ _ _ _ _ Hh Hmi Hs A) as (E1 & E2 & E3 & E4).
  assert (ED : dayOf t = dayNumber y m d) by exact E1.
  pose proof (civil_fields t) as C. rewrite ED, (civil_dayNumber y m d V) in C.
  injection C as <- <- <-.
  repeat split; assumption.
Qed.

End Operations.

(** ** Neighbouring days *)

Section Neighbours.
Context {lz : LocalZone}.
Import calendar calendar_facts.

Lemma dayNumber_month_succ y m :
  1 <= m < 12 -> dayNumber y (m + 1) 1 = dayNumber y m (daysIn (isLeap y) m) + 1.
Proof. intros H. unfold dayNumber. rewrite monthStart_succ. lia. Qed.

Lemma dayNumber_year_succ y : dayNumber (y + 1) 1 1 = dayNumber y 12 31 + 1.
Proof.
  unfold dayNumber. rewrite daysBeforeYear_succ, monthStart_1. unfold yearLen.
  destruct (isLeap y);
    [change (monthStart true 12) with 335 | change (monthStart false 12) with 334]; lia.
Qed.

Lemma dayNumber_jan1 y : dayNumber y 1 1 = daysBeforeYear y.
Proof. unfold dayNumber. rewrite monthStart_1. lia. Qed.

Lemma valid_first y m : 1 <= m <= 12 -> validDate y m 1.
Proof. intros H. split; [exact H|]. pose proof (daysIn_bounds (isLeap y) m H). lia. Qed.

Lemma daysIn_12 leap : daysIn leap 12 = 31.
Proof. destruct leap; reflexivity. Qed.

(** The date of the following day. *)
Lemma civil_succ D y m d :
  civil D = (y, m, d) ->
  civil (D + 1) =
    if d <? daysIn (isLeap y) m then (y, m, d + 1)
    else if m <? 12 then (y, m + 1, 1) else (y + 1, 1, 1).
Proof.
  intros C. apply civil_spec in C. destruct C as [[Hm Hd] E].
  destruct (Z.ltb_spec d (daysIn (isLeap y) m)) as [L|L].
  - rewrite <- (civil_dayNumber y m (d + 1)) by (split; lia).
    f_equal. unfold dayNumber in *. lia.
  - assert (d = daysIn (isLeap y) m) as Ed by lia.
    destruct (Z.ltb_spec m 12) as [L'|L'].
    + rewrite <- (civil_dayNumber y (m + 1) 1) by (apply valid_first; lia).
      f_equal. rewrite dayNumber_month_succ by lia. rewrite <- Ed. lia.
    + assert (m = 12) as -> by lia. rewrite daysIn_12 in Ed. subst d.
      rewrite <- (civil_dayNumber (y + 1) 1 1) by (apply valid_first; lia).
      f_equal. rewrite dayNumber_year_succ. lia.
Qed.

(** The date of the preceding day. *)
Lemma civil_pred D y m d :
  civil D = (y, m, d) ->
  civil (D - 1) =
    if 1 <? d then (y, m, d - 1)
    else if 1 <? m then (y, m - 1, daysIn (isLeap y) (m - 1)) else (y - 1, 12, 31).
Proof.
  intros C. apply civil_spec in C. destruct C as [[Hm Hd] E].
  destruct (Z.ltb_spec 1 d) as [L|L].
  - rewrite <- (civil_dayNumber y m (d - 1)) by (split; lia).
    f_equal. unfold dayNumber in *. lia.
  - assert (d = 1) as -> by lia.
    destruct (Z.ltb_spec 1 m) as [L'|L'].
    + pose proof (daysIn_bounds (isLeap y) (m - 1) ltac:(lia)) as B.
      rewrite <- (civil_dayNumber y (m - 1) (daysIn (isLeap y) (m - 1))) by (split; lia).
      f_equal. pose proof (dayNumber_month_succ y (m - 1) ltac:(lia)) as S.
      replace (m - 1 + 1) with m in S by lia. lia.
    + assert (m = 1) as -> by lia.
      assert (V : validDate (y - 1) 12 31) by (split; [lia|rewrite daysIn_12; lia]).
      rewrite <- (civil_dayNumber (y - 1) 12 31 V).
      f_equal. pose proof (dayNumber_year_succ (y - 1)) as S.
      replace (y - 1 + 1) with y in S by lia. lia.
Qed.

(** The year of a day count grows with it, by at most one year in 365
    days. *)
Lemma year_mono D D' : D <= D' -> fst (absYear D) <= fst (absYear D').
Proof.
  intros H. destruct (absYear_spec D) as [E R]. destruct (absYear_spec D') as [E' R'].
  destruct (Z.le_gt_cases (fst (absYear D)) (fst (absYear D'))) as [L|G]; [exact L|exfalso].
  pose proof (daysBeforeYear_lt _ _ G). lia.
Qed.

Lemma year_near D D' : D <= D' <= D + 365 -> fst (absYear D') <= fst (absYear D) + 1.
Proof.
  intros H. destruct (absYear_spec D) as [E R]. destruct (absYear_spec D') as [E' R'].
  destruct (Z.le_gt_cases (fst (absYear D')) (fst (absYear D) + 1)) as [L|G]; [exact L|exfalso].
  pose proof (daysBeforeYear_lt (fst (absYear D) + 1) _ G) as K.
  rewrite daysBeforeYear_succ in K.
  pose proof (yearLen_bounds (fst (absYear D) + 1)). lia.
Qed.

Lemma Year_dayOf t : time.Year t = fst (absYear (dayOf t)).
Proof. reflexivity. Qed.

Lemma Year_mono t u : dayOf t <= dayOf u -> time.Year t <= time.Year u.
Proof. rewrite !Year_dayOf. apply year_mono. Qed.

Lemma Year_near t u : dayOf t <= dayOf u <= dayOf t + 365 -> time.Year u <= time.Year t + 1.
Proof. rewrite !Year_dayOf. apply year_near. Qed.

(** The days of a year. *)
Lemma Year_days t :
  daysBeforeYear (time.Year t) <= dayOf t < daysBeforeYear (time.Year t + 1).
Proof.
  rewrite Year_dayOf. destruct (absYear_spec (dayOf t)) as [E R].
  rewrite daysBeforeYear_succ. lia.
Qed.

Lemma same_day_fields t u :
  dayOf t = dayOf u ->
  time.Year t = time.Year u /\ time.Month t = time.Month u /\ time.Day t = time.Day u.
Proof.
  intros E. pose proof (civil_fields t) as Ct. pose proof (civil_fields u) as Cu.
  rewrite E, Cu in Ct. injection Ct as E1 E2 E3. repeat split; congruence.
Qed.

(** The fields on the following day. *)
Lemma next_day_fields t u :
  dayOf u = dayOf t + 1 ->
  (time.Day u = 1 /\ (time.Month u = 1 \/ time.Year u = time.Year t)) \/
  (time.Day u <> 1 /\ time.Year u = time.Year t /\ time.Month u = time.Month t).
Proof.
  intros E. pose proof (civil_succ _ _ _ _ (civil_fields t)) as S.
  rewrite <- E, civil_fields in S.
  destruct (time.Day t <? _).
  - injection S as E1 E2 E3. right. pose proof (Day_range t). repeat split; lia.
  - destruct (time.Month t <? 12); injection S as E1 E2 E3; left; split; auto.
Qed.

(** The fields on the preceding day. *)
Lemma prev_day_fields t u :
  dayOf u = dayOf t - 1 ->
  (time.Day t = 1 /\ time.Month t = 1 /\ time.Month u = 12 /\ time.Year u = time.Year t - 1) \/
  (time.Day t = 1 /\ time.Month t <> 1 /\ time.Month u = time.Month t - 1 /\
   time.Year u = time.Year t) \/
  (time.Day t <> 1 /\ time.Year u = time.Year t /\ time.Month u = time.Month t).
Proof.
  intros E. pose proof (civil_pred _ _ _ _ (civil_fields t)) as S.
  rewrite <- E, civil_fields in S. pose proof (Day_range t). pose proof (Month_range t).
  destruct (Z.ltb_spec 1 (time.Day t)).
  - injection S as E1 E2 E3. right. right. repeat split; lia.
  - destruct (Z.ltb_spec 1 (time.Month t)); injection S as E1 E2 E3.
    + right. left. repeat split; lia.
    + left. repeat split; lia.
Qed.

End Neighbours.

(** ** The loop bodies of the forward walk *)

Section ForwardBodies.
Context {lz : LocalZone}.
Import calendar calendar_facts.

Lemma AddDate_abs t dy dm dd :
  fixed (Loc t) -> 1 <= time.Month t + dm <= 12 ->
  let u := time.AddDate t dy dm dd in
  time.abs u
    = dayNumber (time.Year t + dy) (time.Month t + dm) (time.Day t + dd) * 86400
      + time.Hour t * 3600 + time.Minute t * 60 + time.Second t /\
  time.Nanosecond u = time.Nanosecond t /\ Loc u = Loc t.
Proof.
  intros Fx Hm. unfold time.AddDate. rewrite absDate_civil, civil_fields.
  pose proof (Hour_range t). pose proof (Minute_range t). pose proof (Second_range t).
  pose proof (Nanosecond_range t).
  apply Date_abs; [exact Fx|lia..].
Qed.

(** Adding one month in December. *)
Lemma AddDate_december t :
  fixed (Loc t) -> time.Month t = 12 ->
  let u := time.AddDate t 0 1 0 in
  time.abs u
    = dayNumber (time.Year t + 1) 1 (time.Day t) * 86400
      + time.Hour t * 3600 + time.Minute t * 60 + time.Second t /\
  time.Nanosecond u = time.Nanosecond t /\ Loc u = Loc t.
Proof.
  intros Fx Hm. unfold time.AddDate. rewrite absDate_civil, civil_fields.
  rewrite Hm. change (12 + 1) with 13. rewrite Date_month13.
  replace (time.Year t + 0 + 1) with (time.Year t + 1) by lia.
  replace (time.Day t + 0) with (time.Day t) by lia.
  pose proof (Hour_range t). pose proof (Minute_range t). pose proof (Second_range t).
  pose proof (Nanosecond_range t).
  apply Date_abs; [exact Fx|lia..].
Qed.

Lemma dayNumber_eq y m d :
  dayNumber y m d = daysBeforeYear y + monthStart (isLeap y) m + (d - 1).
Proof. reflexivity. Qed.

(** From the clock reading to the fields. *)
Lemma fields_of_abs t y m d h mi sec :
  validDate y m d -> 0 <= h < 24 -> 0 <= mi < 60 -> 0 <= sec < 60 ->
  time.abs t = dayNumber y m d * 86400 + h * 3600 + mi * 60 + sec ->
  dayOf t = dayNumber y m d /\
  time.Year t = y /\ time.Month t = m /\ time.Day t = d /\
  time.Hour t = h /\ time.Minute t = mi /\ time.Second t = sec.
Proof.
  intros V Hh Hmi Hs A.
  destruct (dayOf_clock _ _ _ _ _ Hh Hmi Hs A) as (E1 & E2 & E3 & E4).
  assert (ED : dayOf t = dayNumber y m d) by exact E1.
  pose proof (civil_fields t) as C. rewrite ED, (civil_dayNumber y m d V) in C.
  injection C as F1 F2 F3. repeat apply conj; try assumption; symmetry; assumption.
Qed.

(** The start of the current year, month, day and hour. *)
Lemma snap_year t loc :
  fixed loc ->
  let u := time.Date (time.Year t) 1 1 0 0 0 0 loc in
  Loc u = loc /\ time.Nanosecond u = 0 /\
  time.abs u = daysBeforeYear (time.Year t) * 86400 /\ time.abs u <= time.abs t /\
  time.Year u = time.Year t /\ time.Month u = 1 /\ time.Day u = 1 /\
  time.Hour u = 0 /\ time.Minute u = 0 /\ time.Second u = 0.
Proof.
  intros Fx u.
  destruct (Date_abs (time.Year t) 1 1 0 0 0 0 loc Fx) as (A & N & L); try lia.
  fold u in A, N, L.
  destruct (fields_of_abs u (time.Year t) 1 1 0 0 0) as (D & F); try lia.
  { apply valid_first. lia. }
  rewrite dayNumber_jan1 in A.
  pose proof (Year_days t). pose proof (clock_abs t).
  pose proof (Hour_range t). pose proof (Minute_range t). pose proof (Second_range t).
  repeat apply conj; try tauto; lia.
Qed.

Lemma snap_month t loc :
  fixed loc ->
  let u := time.Date (time.Year t) (time.Month t) 1 0 0 0 0 loc in
  Loc u = loc /\ time.Nanosecond u = 0 /\ time.abs u <= time.abs t /\
  dayOf u = dayOf t - (time.Day t - 1) /\
  time.Year u = time.Year t /\ time.Month u = time.Month t /\ time.Day u = 1 /\
  time.Hour u = 0 /\ time.Minute u = 0 /\ time.Second u = 0.
Proof.
  intros Fx u. pose proof (Month_range t) as Hm.
  destruct (Date_abs (time.Year t) (time.Month t) 1 0 0 0 0 loc Fx) as (A & N & L); try lia.
  fold u in A, N, L.
  destruct (fields_of_abs u (time.Year t) (time.Month t) 1 0 0 0) as (D & F); try lia.
  { apply valid_first. lia. }
  pose proof (fields_dayNumber t) as E. rewrite dayNumber_eq in A, D, E.
  pose proof (clock_abs t). pose proof (Day_range t).
  pose proof (Hour_range t). pose proof (Minute_range t). pose proof (Second_range t).
  repeat apply conj; try tauto; lia.
Qed.

Lemma snap_day t loc :
  fixed loc ->
  let u := time.Date (time.Year t) (time.Month t) (time.Day t) 0 0 0 0 loc in
  Loc u = loc /\ time.Nanosecond u = 0 /\ time.abs u = dayOf t * 86400 /\
  time.abs u <= time.abs t /\ dayOf u = dayOf t /\ time.Hour u = 0.
Proof.
  intros Fx u. pose proof (Month_range t) as Hm.
  destruct (Date_abs (time.Year t) (time.Month t) (time.Day t) 0 0 0 0 loc Fx) as (A & N & L);
    try lia.
  fold u in A, N, L.
  destruct (fields_of_abs u (time.Year t) (time.Month t) (time.Day t) 0 0 0) as (D & F);
    try lia.
  { apply fields_valid. }
  rewrite fields_dayNumber in *.
  pose proof (clock_abs t).
  pose proof (Hour_range t). pose proof (Minute_range t). pose proof (Second_range t).
  repeat apply conj; try tauto; lia.
Qed.

Lemma snap_hour t loc :
  fixed loc ->
  let u := time.Date (time.Year t) (time.Month t) (time.Day t) (time.Hour t) 0 0 0 loc in
  Loc u = loc /\ time.Nanosecond u = 0 /\
  time.abs u = time.abs t - time.abs t mod 3600.
Proof.
  intros Fx u. pose proof (Month_range t) as Hm. pose proof (Hour_range t).
  destruct (Date_abs (time.Year t) (time.Month t) (time.Day t) (time.Hour t) 0 0 0 loc Fx)
    as (A & N & L); try lia.
  fold u in A, N, L. rewrite fields_dayNumber in A.
  split; [exact L|]. split; [exact N|]. rewrite A.
  unfold dayOf, time.Hour, secondsPerDay, secondsPerHour, secondsPerMinute.
  Z.div_mod_to_equations; lia.
Qed.

(** *** The bodies of the six loops of [Next] *)

Lemma next_year_body t loc (added : bool) :
  fixed loc -> Loc t = loc -> time.Nanosecond t = 0 ->
  (added = true -> time.Month t = 1 /\ time.Day t = 1 /\ time.Hour t = 0) ->
  let t1 := if negb added then time.Date (time.Year t) 1 1 0 0 0 0 loc else t in
  let u := time.AddDate t1 1 0 0 in
  Loc u = loc /\ time.Nanosecond u = 0 /\ time.abs t < time.abs u /\
  time.Year u = time.Year t + 1 /\ time.Month u = 1 /\ time.Day u = 1 /\ time.Hour u = 0.
Proof.
  intros Fx HL HN HA t1 u.
  assert (P : Loc t1 = loc /\ time.Nanosecond t1 = 0 /\
              time.Year t1 = time.Year t /\ time.Month t1 = 1 /\ time.Day t1 = 1 /\
              time.Hour t1 = 0).
  { subst t1. destruct added; cbn [negb].
    - destruct (HA eq_refl) as (M & D & H). repeat apply conj; auto.
    - destruct (snap_year t loc Fx) as (L & N & A & Le & Y & M & D & H & Mi & S).
      repeat apply conj; auto. }
  destruct P as (L1 & N1 & Y1 & M1 & D1 & H1).
  destruct (AddDate_abs t1 1 0 0) as (A & N & L); [congruence|lia|]. fold u in A, N, L.
  rewrite Y1, M1, D1, H1 in A.
  pose proof (Minute_range t1). pose proof (Second_range t1).
  replace (1 + 0) with 1 in A by lia.
  destruct (fields_of_abs u (time.Year t + 1) 1 1 0 (time.Minute t1) (time.Second t1))
    as (D & F1 & F2 & F3 & F4 & F5 & F6); try lia.
  { apply valid_first. lia. }
  rewrite dayNumber_jan1 in A.
  pose proof (Year_days t) as YD. pose proof (clock_abs t) as C.
  pose proof (Hour_range t). pose proof (Minute_range t). pose proof (Second_range t).
  repeat apply conj; try congruence; try lia.
Qed.

Lemma next_month_body t loc (added : bool) :
  fixed loc -> Loc t = loc -> time.Nanosecond t = 0 ->
  (added = true -> time.Day t = 1 /\ time.Hour t = 0) ->
  let t1 := if negb added then time.Date (time.Year t) (time.Month t) 1 0 0 0 0 loc else t in
  let u := time.AddDate t1 0 1 0 in
  Loc u = loc /\ time.Nanosecond u = 0 /\ time.abs t < time.abs u /\
  time.Day u = 1 /\ time.Hour u = 0 /\
  ((time.Month t < 12 /\ time.Month u = time.Month t + 1 /\ time.Year u = time.Year t) \/
   (time.Month t = 12 /\ time.Month u = 1 /\ time.Year u = time.Year t + 1)).
Proof.
  intros Fx HL HN HA t1 u.
  assert (P : Loc t1 = loc /\ time.Nanosecond t1 = 0 /\
              time.Year t1 = time.Year t /\ time.Month t1 = time.Month t /\
              time.Day t1 = 1 /\ time.Hour t1 = 0).
  { subst t1. destruct added; cbn [negb].
    - destruct (HA eq_refl) as (D & H). repeat apply conj; auto.
    - destruct (snap_month t loc Fx) as (L & N & Le & DO & Y & M & D & H & Mi & S).
      repeat apply conj; auto. }
  destruct P as (L1 & N1 & Y1 & M1 & D1 & H1).
  pose proof (Month_range t) as Hm. pose proof (fields_valid t) as [_ Hd].
  pose proof (fields_dayNumber t) as E. rewrite dayNumber_eq in E.
  pose proof (clock_abs t) as C.
  pose proof (Hour_range t). pose proof (Minute_range t). pose proof (Second_range t).
  pose proof (Minute_range t1). pose proof (Second_range t1).
  destruct (Z.eq_dec (time.Month t) 12) as [E12 | N12].
  - destruct (AddDate_december t1) as (A & N & L); [congruence|congruence|]. fold u in A, N, L.
    rewrite Y1, D1, H1 in A.
    destruct (fields_of_abs u (time.Year t + 1) 1 1 0 (time.Minute t1) (time.Second t1))
      as (D & F1 & F2 & F3 & F4 & F5 & F6); try lia.
    { apply valid_first. lia. }
    rewrite dayNumber_jan1, daysBeforeYear_succ in A.
    rewrite E12 in E, Hd. rewrite daysIn_12 in Hd.
    assert (MS : monthStart (isLeap (time.Year t)) 12 + 31 = yearLen (time.Year t)).
    { unfold yearLen. destruct (isLeap (time.Year t)); reflexivity. }
    repeat apply conj; try congruence; try lia.
  - destruct (AddDate_abs t1 0 1 0) as (A & N & L); [congruence|lia|]. fold u in A, N, L.
    rewrite Y1, M1, D1, H1 in A.
    replace (time.Year t + 0) with (time.Year t) in A by lia.
    replace (1 + 0) with 1 in A by lia.
    destruct (fields_of_abs u (time.Year t) (time.Month t + 1) 1 0 (time.Minute t1)
                (time.Second t1)) as (D & F1 & F2 & F3 & F4 & F5 & F6); try lia.
    { apply valid_first. lia. }
    rewrite dayNumber_eq, monthStart_succ in A.
    repeat apply conj; try congruence; try lia.
Qed.

Lemma next_day_body t loc (added : bool) :
  fixed loc -> Loc t = loc -> time.Nanosecond t = 0 ->
  (added = true -> time.Hour t = 0) ->
  let t1 :=
    if negb added then time.Date (time.Year t) (time.Month t) (time.Day t) 0 0 0 0 loc
    else t in
  let t2 := time.AddDate t1 0 0 1 in
  let u :=
    if negb (time.Hour t2 =? 0) then
      if time.Hour t2 >? 12 then time.Add t2 ((24 - time.Hour t2) * Hour_)
      else time.Add t2 (- time.Hour t2 * Hour_)
    else t2 in
  Loc u = loc /\ time.Nanosecond u = 0 /\ time.abs t < time.abs u /\
  dayOf u = dayOf t + 1 /\ time.Hour u = 0.
Proof.
  intros Fx HL HN HA t1 t2 u.
  assert (P : Loc t1 = loc /\ time.Nanosecond t1 = 0 /\ dayOf t1 = dayOf t /\
              time.Hour t1 = 0).
  { subst t1. destruct added; cbn [negb].
    - repeat apply conj; auto.
    - destruct (snap_day t loc Fx) as (L & N & A & Le & DO & H). repeat apply conj; auto. }
  destruct P as (L1 & N1 & DO1 & H1).
  pose proof (Month_range t1) as Hm.
  destruct (AddDate_abs t1 0 0 1) as (A & N & L); [congruence|lia|]. fold t2 in A, N, L.
  rewrite H1 in A.
  replace (time.Year t1 + 0) with (time.Year t1) in A by lia.
  replace (time.Month t1 + 0) with (time.Month t1) in A by lia.
  pose proof (fields_dayNumber t1) as E. rewrite dayNumber_eq in A, E.
  pose proof (Minute_range t1). pose proof (Second_range t1).
  pose proof (clock_abs t) as C.
  pose proof (Hour_range t). pose proof (Minute_range t). pose proof (Second_range t).
  assert (A2 : time.abs t2 = (dayOf t + 1) * 86400 + 0 * 3600 + time.Minute t1 * 60
                             + time.Second t1) by lia.
  destruct (dayOf_clock (dayOf t + 1) 0 (time.Minute t1) (time.Second t1) (time.abs t2))
    as (E1 & E2 & _); try lia.
  assert (Hz : time.Hour t2 = 0) by exact E2.
  assert (U : u = t2) by (subst u; rewrite Hz; reflexivity).
  rewrite U. repeat apply conj; try congruence; try lia. exact E1.
Qed.

Lemma Hour_val : 1 * Hour_ = 3600 * Second_.
Proof. reflexivity. Qed.

Lemma Minute_val : 1 * Minute_ = 60 * Second_.
Proof. reflexivity. Qed.

Lemma next_hour_body t loc (added : bool) :
  fixed loc -> Loc t = loc -> time.Nanosecond t = 0 ->
  let t1 :=
    if negb added
    then time.Date (time.Year t) (time.Month t) (time.Day t) (time.Hour t) 0 0 0 loc
    else t in
  let u := time.Add t1 (1 * Hour_) in
  Loc u = loc /\ time.Nanosecond u = 0 /\ time.abs t < time.abs u /\
  time.abs u / 3600 = time.abs t / 3600 + 1.
Proof.
  intros Fx HL HN t1 u.
  assert (P : Loc t1 = loc /\ time.Nanosecond t1 = 0 /\
              (time.abs t1 = time.abs t \/ time.abs t1 = time.abs t - time.abs t mod 3600)).
  { subst t1. destruct added; cbn [negb].
    - repeat apply conj; auto.
    - destruct (snap_hour t loc Fx) as (L & N & A). repeat apply conj; auto. }
  destruct P as (L1 & N1 & A1).
  subst u. rewrite Hour_val, Loc_Add, Nanosecond_Add, abs_Add by congruence.
  repeat apply conj; auto; destruct A1 as [-> | ->]; Z.div_mod_to_equations; lia.
Qed.

Lemma next_minute_body t loc (added : bool) :
  fixed loc -> Loc t = loc -> time.Nanosecond t = 0 ->
  let t1 := if negb added then time.Truncate t Minute_ else t in
  let u := time.Add t1 (1 * Minute_) in
  Loc u = loc /\ time.Nanosecond u = 0 /\ time.abs t < time.abs u <= time.abs t + 60.
Proof.
  intros Fx HL HN t1 u.
  assert (P : Loc t1 = loc /\ time.Nanosecond t1 = 0 /\
              time.abs t - 60 < time.abs t1 <= time.abs t).
  { subst t1. destruct added; cbn [negb].
    - repeat apply conj; auto; lia.
    - assert (Ft : fixed (Loc t)) by (rewrite HL; exact Fx).
      destruct (Truncate_Minute t Ft HN) as (L & N & A).
      repeat apply conj; try congruence; lia. }
  destruct P as (L1 & N1 & A1).
  subst u. rewrite Minute_val, Loc_Add, Nanosecond_Add, abs_Add by congruence.
  repeat apply conj; auto; lia.
Qed.

Lemma next_second_body t loc (added : bool) :
  fixed loc -> Loc t = loc -> time.Nanosecond t = 0 ->
  let t1 := if negb added then time.Truncate t Second_ else t in
  let u := time.Add t1 (1 * Second_) in
  Loc u = loc /\ time.Nanosecond u = 0 /\ time.abs u = time.abs t + 1.
Proof.
  intros Fx HL HN t1 u.
  assert (P : t1 = t).
  { subst t1. destruct added; cbn [negb]; [reflexivity|apply Truncate_Second; exact HN]. }
  subst u. rewrite P, Loc_Add, Nanosecond_Add, abs_Add by congruence. auto.
Qed.

(** *** Fields after a short step forward *)

Lemma hour_index t : time.abs t / 3600 = dayOf t * 24 + time.Hour t.
Proof.
  unfold dayOf, time.Hour, secondsPerDay, secondsPerHour, secondsPerMinute.
  Z.div_mod_to_equations; lia.
Qed.

Lemma minute_index t : time.abs t / 60 = (time.abs t / 3600) * 60 + time.Minute t.
Proof.
  unfold time.Minute, secondsPerHour, secondsPerMinute. Z.div_mod_to_equations; lia.
Qed.

(** Within a minute the clock enters a new day only in hour 0. *)
Lemma step_within_minute t u :
  time.abs t < time.abs u <= time.abs t + 60 ->
  dayOf u = dayOf t \/ (dayOf u = dayOf t + 1 /\ time.Hour u = 0).
Proof.
  intros H. unfold dayOf, time.Hour, secondsPerDay, secondsPerHour, secondsPerMinute.
  Z.div_mod_to_equations; lia.
Qed.

(** Within a minute the clock enters a new hour only in minute 0. *)
Lemma step_same_hour t u :
  time.abs t < time.abs u <= time.abs t + 60 -> time.Minute u <> 0 ->
  time.abs u / 3600 = time.abs t / 3600.
Proof.
  unfold time.Minute, secondsPerHour, secondsPerMinute. intros H M.
  Z.div_mod_to_equations; lia.
Qed.

Lemma step_same_minute t u :
  time.abs u = time.abs t + 1 -> time.Second u <> 0 -> time.abs u / 60 = time.abs t / 60.
Proof.
  unfold time.Second, secondsPerMinute. intros H M. Z.div_mod_to_equations; lia.
Qed.

Lemma same_hour_fields t u :
  time.abs u / 3600 = time.abs t / 3600 -> dayOf u = dayOf t /\ time.Hour u = time.Hour t.
Proof.
  intros E. pose proof (hour_index t). pose proof (hour_index u).
  pose proof (Hour_range t). pose proof (Hour_range u). lia.
Qed.

Lemma same_minute_fields t u :
  time.abs u / 60 = time.abs t / 60 ->
  time.abs u / 3600 = time.abs t / 3600 /\ time.Minute u = time.Minute t.
Proof.
  intros E. pose proof (minute_index t). pose proof (minute_index u).
  pose proof (Minute_range t). pose proof (Minute_range u). lia.
Qed.

Lemma next_hour_fields t u :
  time.abs u / 3600 = time.abs t / 3600 + 1 ->
  (time.Hour u = 0 /\ dayOf u = dayOf t + 1) \/ (time.Hour u <> 0 /\ dayOf u = dayOf t).
Proof.
  intros E. pose proof (hour_index t). pose proof (hour_index u).
  pose proof (Hour_range t). pose proof (Hour_range u). lia.
Qed.

End ForwardBodies.

(** ** The loop bodies of the backward walk *)

Section BackwardBodies.
Context {lz : LocalZone}.
Import calendar calendar_facts.

Lemma minus_Second : - Second_ = (-1) * Second_.
Proof. reflexivity. Qed.

Lemma latest_year_body t loc :
  fixed loc ->
  let u := time.Add (time.Date (time.Year t) 1 1 0 0 0 0 loc) (- Second_) in
  Loc u = loc /\ time.Nanosecond u = 0 /\ time.abs u < time.abs t /\
  time.Year u = time.Year t - 1.
Proof.
  intros Fx u. destruct (snap_year t loc Fx) as (L & N & A & Le & _).
  subst u. rewrite minus_Second, Loc_Add, Nanosecond_Add, abs_Add by congruence.
  repeat apply conj; auto; try lia.
  rewrite Year_dayOf.
  rewrite (absYear_unique _ (time.Year t - 1)); [reflexivity|].
  unfold dayOf. rewrite abs_Add, A by congruence.
  replace (time.Year t - 1 + 1) with (time.Year t) by lia.
  rewrite daysBeforeYear_pred. pose proof (yearLen_bounds (time.Year t - 1)).
  Z.div_mod_to_equations; lia.
Qed.

Lemma latest_month_body t loc :
  fixed loc ->
  let u := time.Add (time.Date (time.Year t) (time.Month t) 1 0 0 0 0 loc) (- Second_) in
  Loc u = loc /\ time.Nanosecond u = 0 /\ time.abs u < time.abs t /\
  ((time.Month t = 1 /\ time.Month u = 12 /\ time.Year u = time.Year t - 1) \/
   (time.Month t <> 1 /\ time.Month u = time.Month t - 1 /\ time.Year u = time.Year t)).
Proof.
  intros Fx u.
  destruct (snap_month t loc Fx) as (L & N & Le & DO & Y & M & D & H & Mi & S).
  set (v := time.Date (time.Year t) (time.Month t) 1 0 0 0 0 loc) in *.
  assert (A : time.abs u = time.abs v - 1) by (subst u; rewrite minus_Second, abs_Add by congruence; lia).
  assert (E : dayOf u = dayOf v - 1).
  { pose proof (clock_abs v) as C. rewrite H, Mi, S in C. unfold dayOf at 1. rewrite A, C.
    Z.div_mod_to_equations; lia. }
  subst u. rewrite minus_Second, Loc_Add, Nanosecond_Add. rewrite minus_Second in A, E.
  repeat apply conj; auto; try lia.
  destruct (prev_day_fields v _ E) as [K | [K | K]]; rewrite Y, M in K; [left|right|]; tauto.
Qed.

Lemma latest_day_body t loc :
  fixed loc ->
  let u :=
    time.Add (time.Date (time.Year t) (time.Month t) (time.Day t) 0 0 0 0 loc) (- Second_) in
  Loc u = loc /\ time.Nanosecond u = 0 /\ time.abs u < time.abs t /\ dayOf u = dayOf t - 1.
Proof.
  intros Fx u. destruct (snap_day t loc Fx) as (L & N & A & Le & DO & H).
  subst u. rewrite minus_Second, Loc_Add, Nanosecond_Add. unfold dayOf at 1.
  rewrite abs_Add, A by congruence. repeat apply conj; auto; try lia.
  Z.div_mod_to_equations; lia.
Qed.

Lemma latest_hour_body t loc :
  fixed loc ->
  let u :=
    time.Add (time.Date (time.Year t) (time.Month t) (time.Day t) (time.Hour t) 0 0 0 loc)
             (- Second_) in
  Loc u = loc /\ time.Nanosecond u = 0 /\ time.abs u < time.abs t /\
  time.abs u / 3600 = time.abs t / 3600 - 1.
Proof.
  intros Fx u. destruct (snap_hour t loc Fx) as (L & N & A).
  subst u. rewrite minus_Second, Loc_Add, Nanosecond_Add, abs_Add, A by congruence.
  repeat apply conj; auto; Z.div_mod_to_equations; lia.
Qed.

Lemma latest_minute_body t :
  fixed (Loc t) -> time.Nanosecond t = 0 ->
  let u := time.Add (time.Truncate t Minute_) (- Second_) in
  Loc u = Loc t /\ time.Nanosecond u = 0 /\ time.abs t - 61 < time.abs u < time.abs t.
Proof.
  intros Fx HN u. destruct (Truncate_Minute t Fx HN) as (L & N & A).
  subst u. rewrite minus_Second, Loc_Add, Nanosecond_Add, abs_Add by congruence.
  repeat apply conj; auto; lia.
Qed.

Lemma latest_second_body t :
  fixed (Loc t) -> time.Nanosecond t = 0 ->
  let u := time.Add (time.Truncate t Second_) (- Second_) in
  Loc u = Loc t /\ time.Nanosecond u = 0 /\ time.abs u = time.abs t - 1.
Proof.
  intros Fx HN u. subst u.
  rewrite (Truncate_Second t HN), minus_Second, Loc_Add, Nanosecond_Add, abs_Add by exact Fx.
  repeat apply conj; auto; lia.
Qed.

(** *** Fields after a short step backward *)

Lemma prev_hour_fields t u :
  time.abs u / 3600 = time.abs t / 3600 - 1 -> time.Hour t <> 0 -> dayOf u = dayOf t.
Proof.
  intros E Hh. pose proof (hour_index t). pose proof (hour_index u).
  pose proof (Hour_range t). pose proof (Hour_range u). lia.
Qed.

Lemma back_same_hour t u :
  time.abs t - 61 < time.abs u < time.abs t -> time.Minute t <> 0 ->
  time.abs u / 3600 = time.abs t / 3600.
Proof.
  unfold time.Minute, secondsPerHour, secondsPerMinute. intros H M.
  Z.div_mod_to_equations; lia.
Qed.

Lemma back_same_minute t u :
  time.abs u = time.abs t - 1 -> time.Second t <> 0 -> time.abs u / 60 = time.abs t / 60.
Proof.
  unfold time.Second, secondsPerMinute. intros H M. Z.div_mod_to_equations; lia.
Qed.

(** A step of at most a day changes the year by at most one. *)
Lemma Year_back t u : dayOf t - 365 <= dayOf u <= dayOf t -> time.Year t - 1 <= time.Year u.
Proof.
  intros H. assert (K : dayOf u <= dayOf t <= dayOf u + 365) by lia.
  pose proof (Year_near u t K). lia.
Qed.

Lemma dayOf_mono t u : time.abs t <= time.abs u -> dayOf t <= dayOf u.
Proof. intros H. unfold dayOf. Z.div_mod_to_equations; lia. Qed.

Lemma dayOf_near t u k :
  0 <= k -> time.abs u <= time.abs t + k * 86400 -> dayOf u <= dayOf t + k.
Proof. intros Hk H. unfold dayOf. Z.div_mod_to_equations; lia. Qed.

End BackwardBodies.

(** ** Running a walk *)

Section Run.
Variable St : Type.
Variable step : St -> outcome St.

Lemma run_S fuel st :
  run step (S fuel) st =
    match step st with Goto st' => run step fuel st' | Return r => Some r end.
Proof. reflexivity. Qed.

(** More fuel does not change a result. *)
Lemma run_fuel_mono fuel fuel' st r :
  run step fuel st = Some r -> (fuel <= fuel')%nat -> run step fuel' st = Some r.
Proof.
  revert fuel' st. induction fuel as [|n IH]; intros fuel' st H L; [discriminate|].
  destruct fuel' as [|n']; [lia|]. rewrite run_S in *.
  destruct (step st); [apply IH; [exact H|lia] | exact H].
Qed.

Lemma run_deterministic fuel fuel' st r r' :
  run step fuel st = Some r -> run step fuel' st = Some r' -> r = r'.
Proof.
  intros H H'.
  pose proof (run_fuel_mono _ (Nat.max fuel fuel') _ _ H (Nat.le_max_l _ _)) as K.
  pose proof (run_fuel_mono _ (Nat.max fuel fuel') _ _ H' (Nat.le_max_r _ _)) as K'.
  congruence.
Qed.

(** A walk in a state that steps to itself never returns. *)
Lemma run_stuck st : step st = Goto st -> forall fuel, run step fuel st = None.
Proof.
  intros E fuel. induction fuel as [|n IH]; [reflexivity|]. rewrite run_S, E. exact IH.
Qed.

Lemma run_advance n st st' :
  advance step n st = Some st' -> step st' = Goto st' ->
  forall fuel, run step fuel st = None.
Proof.
  revert st. induction n as [|n IH]; intros st A E fuel.
  - injection A as ->. apply run_stuck. exact E.
  - cbn [advance] in A. destruct fuel as [|fuel]; [reflexivity|]. rewrite run_S.
    destruct (step st) as [st1|r]; [|discriminate]. apply (IH st1 A E).
Qed.

Variable Inv : St -> Prop.
Variable Post : Time -> Prop.

(** What a walk returns, when it returns, from a state in an invariant that
    every step keeps. *)
Lemma run_safe :
  (forall st st', Inv st -> step st = Goto st' -> Inv st') ->
  (forall st r, Inv st -> step st = Return r -> Post r) ->
  forall fuel st r, Inv st -> run step fuel st = Some r -> Post r.
Proof.
  intros HG HR fuel. induction fuel as [|n IH]; intros st r I H; [discriminate|].
  rewrite run_S in H. destruct (step st) as [st'|r'] eqn:E.
  - apply (IH st'); [apply (HG st st' I E) | exact H].
  - injection H as <-. apply (HR st r' I E).
Qed.

Variable measure : St -> Z.

Hypothesis step_Goto :
  forall st st', Inv st -> step st = Goto st' -> Inv st' /\ measure st' < measure st.
Hypothesis step_Return : forall st r, Inv st -> step st = Return r -> Post r.
Hypothesis measure_nonneg : forall st, Inv st -> 0 <= measure st.

(** A result of a walk started in the invariant meets the postcondition. *)
Lemma run_invariant fuel st r : Inv st -> run step fuel st = Some r -> Post r.
Proof.
  revert st. induction fuel as [|n IH]; intros st I H; [discriminate|].
  rewrite run_S in H. destruct (step st) as [st'|r'] eqn:E.
  - apply (IH st'); [apply (step_Goto st st' I E) | exact H].
  - injection H as <-. apply (step_Return st r' I E).
Qed.

(** A walk whose measure decreases returns. *)
Lemma run_terminates_within n st :
  Inv st -> measure st <= Z.of_nat n -> exists r, run step (S n) st = Some r.
Proof.
  revert st. induction n as [|n IH]; intros st I M; rewrite run_S;
    destruct (step st) as [st'|r'] eqn:E; try (eexists; reflexivity).
  - destruct (step_Goto st st' I E) as [I' D]. pose proof (measure_nonneg st' I'). lia.
  - destruct (step_Goto st st' I E) as [I' D]. apply IH; [exact I'|lia].
Qed.

Lemma run_terminates st : Inv st -> exists fuel r, run step fuel st = Some r /\ Post r.
Proof.
  intros I. destruct (run_terminates_within (Z.to_nat (measure st)) st I) as [r H].
  { pose proof (measure_nonneg st I). lia. }
  exists (S (Z.to_nat (measure st))), r. split; [exact H|].
  apply (run_invariant _ st r I H).
Qed.

End Run.

(** ** The invariant of the forward walk *)

(** Discharges [passed] at a loop head from the facts in the context. *)
Ltac solve_passed :=
  unfold passed; cbn [rank]; repeat apply conj; intros;
  first [ lia | assumption
        | match goal with H : _ -> ?G |- ?G => apply H; cbn [rank]; lia end
        | split; [assumption | lia] ].

Section NextInvariant.
Context {lz : LocalZone}.
Import calendar calendar_facts.
Variable s : SpecSchedule.
Variable loc origLocation : time.Location.
Variable yearLimit : Z.
Variable t0 : Time.
Hypothesis loc_fixed : fixed loc.

Lemma yearBit_same t u : time.Year u = time.Year t -> yearBit s t -> yearBit s u.
Proof. unfold yearBit. intros ->. tauto. Qed.

Lemma monthBit_same t u : time.Month u = time.Month t -> monthBit s t -> monthBit s u.
Proof. unfold monthBit. intros ->. tauto. Qed.

(** The loops passed stay passed while the fields they read keep their
    values. *)
Lemma passed_same pc t u :
  (2 <= rank pc -> time.Year u = time.Year t) ->
  (3 <= rank pc -> time.Month u = time.Month t) ->
  (4 <= rank pc -> dayOf u = dayOf t) ->
  (5 <= rank pc -> time.Hour u = time.Hour t) ->
  (6 <= rank pc -> time.Minute u = time.Minute t) ->
  passed s pc t -> passed s pc u.
Proof.
  intros E2 E3 E4 E5 E6 (P2 & P3 & P4 & P5 & P6). unfold passed.
  repeat apply conj; intros R.
  - destruct (P2 R) as [B M]. split; [apply (yearBit_same t); auto | rewrite E2; auto].
  - apply (monthBit_same t); auto.
  - rewrite (dayMatches_dayOf s u t) by (apply E4; lia). apply P4; lia.
  - rewrite E5 by lia. apply P5; lia.
  - rewrite E6 by lia. apply P6; lia.
Qed.

Lemma passed_weaken pc pc' t : rank pc' <= rank pc -> passed s pc t -> passed s pc' t.
Proof.
  intros L (P2 & P3 & P4 & P5 & P6). unfold passed.
  repeat apply conj; intros R; [apply P2|apply P3|apply P4|apply P5|apply P6]; lia.
Qed.

Lemma aligned_same_day t u :
  dayOf u = dayOf t -> yearBit s t -> monthBit s t -> dayMatches s t = true -> aligned s u.
Proof.
  intros E Y M D. destruct (same_day_fields u t E) as (EY & EM & ED).
  repeat apply conj; left.
  - apply (yearBit_same t); auto.
  - apply (monthBit_same t); auto.
  - rewrite (dayMatches_dayOf s u t E). exact D.
Qed.

Lemma aligned_next_day t u :
  dayOf u = dayOf t + 1 -> time.Hour u = 0 -> yearBit s t -> monthBit s t -> aligned s u.
Proof.
  intros E H Y M.
  destruct (next_day_fields t u E) as [(D1 & [M1 | EY]) | (D1 & EY & EM)];
    repeat apply conj; auto.
  - left. apply (yearBit_same t); auto.
  - left. apply (yearBit_same t); auto.
  - left. apply (monthBit_same t); auto.
Qed.

Lemma aligned_within_minute t u :
  time.abs t < time.abs u <= time.abs t + 60 ->
  yearBit s t -> monthBit s t -> dayMatches s t = true -> aligned s u.
Proof.
  intros H Y M D. destruct (step_within_minute t u H) as [E | [E Hz]].
  - apply (aligned_same_day t); auto.
  - apply (aligned_next_day t); auto.
Qed.

(** A step of at most a day reaches at most the next year. *)
Lemma Year_step t u k :
  time.abs t <= time.abs u <= time.abs t + k * 86400 -> 0 <= k <= 365 ->
  time.Year t <= time.Year u <= time.Year t + 1.
Proof.
  intros H Hk.
  assert (L1 : dayOf t <= dayOf u) by (apply dayOf_mono; lia).
  assert (L2 : dayOf u <= dayOf t + k) by (apply dayOf_near; lia).
  split; [apply Year_mono; lia | apply Year_near; lia].
Qed.

Lemma nextMeasure_nonneg st : nextInv s loc yearLimit t0 st -> 0 <= nextMeasure yearLimit st.
Proof.
  destruct st as [[pc t] added]. intros (_ & _ & _ & HY & _). unfold nextMeasure.
  pose proof (Year_days t) as [_ D].
  assert (daysBeforeYear (time.Year t + 1) <= daysBeforeYear (yearLimit + 2))
    by (apply daysBeforeYear_le; lia).
  assert (time.abs t < (dayOf t + 1) * 86400) by (unfold dayOf; Z.div_mod_to_equations; lia).
  assert (0 <= 6 - rank pc) by (destruct pc; cbn; lia).
  nia.
Qed.

Local Notation "'step'" := (nextStep s loc origLocation yearLimit).
Local Notation "'Inv'" := (nextInv s loc yearLimit t0).
Local Notation "'measure'" := (nextMeasure yearLimit).

Lemma passed_low pc t : rank pc <= 1 -> passed s pc t.
Proof. intros L. unfold passed. repeat apply conj; intros; lia. Qed.

Lemma nextInv_intro pc t added :
  Loc t = loc -> time.Nanosecond t = 0 -> time.abs t0 <= time.abs t ->
  time.Year t <= yearLimit + 1 ->
  (1 <= rank pc -> time.Year t <= yearLimit /\ time.Year t <= maxYear) ->
  passed s pc t -> (added = true -> aligned s t) -> Inv (pc, t, added).
Proof. unfold nextInv. tauto. Qed.

Lemma next_WRAP t added st' :
  Inv (WRAP, t, added) -> step (WRAP, t, added) = Goto st' ->
  Inv st' /\ measure st' < measure (WRAP, t, added).
Proof.
  intros (HL & HN & H0 & HY & H1 & HP & HA). unfold nextStep.
  destruct (Z.gtb_spec (time.Year t) yearLimit); [discriminate|].
  destruct (Z.gtb_spec (time.Year t) maxYear); [discriminate|]. cbn [orb].
  intros E. injection E as <-. split.
  - apply nextInv_intro;
      [exact HL | exact HN | exact H0 | exact HY | intros _; lia
      | apply passed_low; cbn; lia | exact HA].
  - unfold nextMeasure. cbn [rank]. lia.
Qed.

Lemma next_YEAR t added st' :
  Inv (YEAR, t, added) -> step (YEAR, t, added) = Goto st' ->
  Inv st' /\ measure st' < measure (YEAR, t, added).
Proof.
  intros (HL & HN & H0 & HY & H1 & HP & HA). unfold nextStep. rewrite Bit_eqb.
  destruct ((time.Year t <? minYear) || negb (Z.testbit (Year s) (time.Year t - minYear)))
    eqn:C.
  - assert (NB : ~ yearBit s t).
    { unfold yearBit. intros [B1 B2]. rewrite B2 in C.
      destruct (Z.ltb_spec (time.Year t) minYear); [lia|discriminate]. }
    assert (A : added = true -> time.Month t = 1 /\ time.Day t = 1 /\ time.Hour t = 0).
    { intros Ha. destruct (HA Ha) as ([B|B] & _); tauto. }
    destruct (next_year_body t loc added loc_fixed HL HN A) as (L & N & Lt & Y & M & D & H).
    set (u := time.AddDate _ 1 0 0) in *.
    destruct (Z.gtb_spec (time.Year u) yearLimit); [discriminate|].
    destruct (Z.gtb_spec (time.Year u) maxYear); [discriminate|]. cbn [orb].
    intros E. injection E as <-. split.
    + apply nextInv_intro;
        [exact L | exact N | lia | lia | intros _; lia
        | apply passed_low; cbn; lia | intros _; unfold aligned; tauto].
    + unfold nextMeasure. cbn [rank]. lia.
  - intros E. injection E as <-. split.
    + apply orb_false_iff in C. destruct C as [C1 C2]. apply negb_false_iff in C2.
      destruct (Z.ltb_spec (time.Year t) minYear); [discriminate|].
      assert (Hr : time.Year t <= yearLimit /\ time.Year t <= maxYear)
        by (apply H1; cbn; lia).
      apply nextInv_intro;
        [exact HL | exact HN | exact H0 | exact HY | intros _; exact Hr | | exact HA].
      unfold passed, yearBit. cbn [rank].
      split; [intros _; tauto|]. repeat apply conj; intros; lia.
    + unfold nextMeasure. cbn [rank]. lia.
Qed.

Lemma next_MONTH t added st' :
  Inv (MONTH, t, added) -> step (MONTH, t, added) = Goto st' ->
  Inv st' /\ measure st' < measure (MONTH, t, added).
Proof.
  intros (HL & HN & H0 & HY & H1 & HP & HA). unfold nextStep. rewrite Bit_eqb.
  assert (Hr : time.Year t <= yearLimit /\ time.Year t <= maxYear) by (apply H1; cbn; lia).
  destruct HP as (P2 & P3 & P4 & P5 & P6).
  assert (Yb : yearBit s t) by (apply P2; cbn; lia).
  destruct (Z.testbit (Month s) (time.Month t)) eqn:C; cbn [negb].
  - intros E. injection E as <-. split.
    + apply nextInv_intro;
        [exact HL | exact HN | exact H0 | exact HY | intros _; exact Hr | | exact HA].
      solve_passed.
    + unfold nextMeasure. cbn [rank]. lia.
  - assert (A : added = true -> time.Day t = 1 /\ time.Hour t = 0).
    { intros Ha. destruct (HA Ha) as (_ & [B|B] & _); [|tauto].
      unfold monthBit in B. congruence. }
    destruct (next_month_body t loc added loc_fixed HL HN A) as (L & N & Lt & D & H & Cs).
    set (u := time.AddDate _ 0 1 0) in *.
    destruct (Z.eqb_spec (time.Month u) 1) as [M1 | M1]; intros E; injection E as <-.
    + split.
      * apply nextInv_intro;
          [exact L | exact N | lia | | cbn [rank]; intros; lia
          | apply passed_low; cbn; lia | intros _; unfold aligned; tauto].
        destruct Cs as [(_ & _ & EY) | (_ & _ & EY)]; lia.
      * unfold nextMeasure. cbn [rank]. lia.
    + destruct Cs as [(Lm & EM & EY) | (_ & EM & _)]; [|congruence]. split.
      * apply nextInv_intro; [exact L | exact N | lia | lia | intros _; lia | | ].
        -- unfold passed. cbn [rank]. repeat apply conj; intros; try lia.
           split; [apply (yearBit_same t); auto | lia].
        -- intros _. unfold aligned. repeat apply conj; auto.
           left. apply (yearBit_same t); auto.
      * unfold nextMeasure. cbn [rank]. lia.
Qed.

Lemma next_DAY t added st' :
  Inv (DAY, t, added) -> step (DAY, t, added) = Goto st' ->
  Inv st' /\ measure st' < measure (DAY, t, added).
Proof.
  intros (HL & HN & H0 & HY & H1 & HP & HA). unfold nextStep.
  assert (Hr : time.Year t <= yearLimit /\ time.Year t <= maxYear) by (apply H1; cbn; lia).
  pose proof HP as (P2 & P3 & P4 & P5 & P6).
  assert (Yb : yearBit s t) by (apply P2; cbn; lia).
  assert (Mb : monthBit s t) by (apply P3; cbn; lia).
  destruct (dayMatches s t) eqn:C; cbn [negb].
  - intros E. injection E as <-. split.
    + apply nextInv_intro;
        [exact HL | exact HN | exact H0 | exact HY | intros _; exact Hr | | exact HA].
      solve_passed.
    + unfold nextMeasure. cbn [rank]. lia.
  - assert (A : added = true -> time.Hour t = 0).
    { intros Ha. destruct (HA Ha) as (_ & _ & [B|B]); [congruence|exact B]. }
    destruct (next_day_body t loc added loc_fixed HL HN A) as (L & N & Lt & D & H).
    match goal with |- context [time.Day ?x =? 1] => set (u := x) in * end.
    assert (Yn : time.Year u <= time.Year t + 1) by (apply Year_near; lia).
    assert (Al : aligned s u) by (apply (aligned_next_day t); auto).
    destruct (Z.eqb_spec (time.Day u) 1) as [D1 | D1]; intros E; injection E as <-.
    + split.
      * apply nextInv_intro;
          [exact L | exact N | lia | lia | cbn [rank]; intros; lia
          | apply passed_low; cbn; lia | intros _; exact Al].
      * unfold nextMeasure. cbn [rank]. lia.
    + destruct (next_day_fields t u D) as [(D1' & _) | (_ & EY & EM)]; [contradiction|].
      split.
      * apply nextInv_intro;
          [exact L | exact N | lia | lia | intros _; lia | | intros _; exact Al].
        apply (passed_same DAY t); cbn [rank]; intros; try lia; auto.
      * unfold nextMeasure. cbn [rank]. lia.
Qed.

Lemma next_HOUR t added st' :
  Inv (HOUR, t, added) -> step (HOUR, t, added) = Goto st' ->
  Inv st' /\ measure st' < measure (HOUR, t, added).
Proof.
  intros (HL & HN & H0 & HY & H1 & HP & HA). unfold nextStep. rewrite Bit_eqb.
  assert (Hr : time.Year t <= yearLimit /\ time.Year t <= maxYear) by (apply H1; cbn; lia).
  pose proof HP as (P2 & P3 & P4 & P5 & P6).
  assert (Yb : yearBit s t) by (apply P2; cbn; lia).
  assert (Mb : monthBit s t) by (apply P3; cbn; lia).
  assert (Db : dayMatches s t = true) by (apply P4; cbn; lia).
  destruct (Z.testbit (Hour s) (time.Hour t)) eqn:C; cbn [negb].
  - intros E. injection E as <-. split.
    + apply nextInv_intro;
        [exact HL | exact HN | exact H0 | exact HY | intros _; exact Hr | | exact HA].
      solve_passed.
    + unfold nextMeasure. cbn [rank]. lia.
  - destruct (next_hour_body t loc added loc_fixed HL HN) as (L & N & Lt & Ix).
    set (u := time.Add _ (1 * Hour_)) in *.
    destruct (next_hour_fields t u Ix) as [(Hz & D) | (Hz & D)];
      destruct (Z.eqb_spec (time.Hour u) 0) as [Q | Q]; try contradiction;
      intros E; injection E as <-.
    + assert (Yn : time.Year u <= time.Year t + 1) by (apply Year_near; lia).
      split.
      * apply nextInv_intro;
          [exact L | exact N | lia | lia | cbn [rank]; intros; lia
          | apply passed_low; cbn; lia | intros _; apply (aligned_next_day t); auto].
      * unfold nextMeasure. cbn [rank]. lia.
    + destruct (same_day_fields u t D) as (EY & EM & ED). split.
      * apply nextInv_intro;
          [exact L | exact N | lia | lia | intros _; lia |
          | intros _; apply (aligned_same_day t); auto].
        apply (passed_same HOUR t); cbn [rank]; intros; try lia; auto.
      * unfold nextMeasure. cbn [rank]. lia.
Qed.

Lemma next_MINUTE t added st' :
  Inv (MINUTE, t, added) -> step (MINUTE, t, added) = Goto st' ->
  Inv st' /\ measure st' < measure (MINUTE, t, added).
Proof.
  intros (HL & HN & H0 & HY & H1 & HP & HA). unfold nextStep. rewrite Bit_eqb.
  assert (Hr : time.Year t <= yearLimit /\ time.Year t <= maxYear) by (apply H1; cbn; lia).
  pose proof HP as (P2 & P3 & P4 & P5 & P6).
  assert (Yb : yearBit s t) by (apply P2; cbn; lia).
  assert (Mb : monthBit s t) by (apply P3; cbn; lia).
  assert (Db : dayMatches s t = true) by (apply P4; cbn; lia).
  destruct (Z.testbit (Minute s) (time.Minute t)) eqn:C; cbn [negb].
  - intros E. injection E as <-. split.
    + apply nextInv_intro;
        [exact HL | exact HN | exact H0 | exact HY | intros _; exact Hr | | exact HA].
      solve_passed.
    + unfold nextMeasure. cbn [rank]. lia.
  - destruct (next_minute_body t loc added loc_fixed HL HN) as (L & N & Lt).
    set (u := time.Add _ (1 * Minute_)) in *.
    assert (Al : aligned s u) by (apply (aligned_within_minute t); auto).
    destruct (Z.eqb_spec (time.Minute u) 0) as [Q | Q]; intros E; injection E as <-.
    + assert (Yn : time.Year u <= time.Year t + 1) by (apply (Year_step t u 1); lia).
      split.
      * apply nextInv_intro;
          [exact L | exact N | lia | lia | cbn [rank]; intros; lia
          | apply passed_low; cbn; lia | intros _; exact Al].
      * unfold nextMeasure. cbn [rank]. lia.
    + destruct (same_hour_fields t u (step_same_hour t u Lt Q)) as (D & EH).
      destruct (same_day_fields u t D) as (EY & EM & ED). split.
      * apply nextInv_intro;
          [exact L | exact N | lia | lia | intros _; lia | | intros _; exact Al].
        apply (passed_same MINUTE t); cbn [rank]; intros; try lia; auto.
      * unfold nextMeasure. cbn [rank]. lia.
Qed.

Lemma next_SECOND t added st' :
  Inv (SECOND, t, added) -> step (SECOND, t, added) = Goto st' ->
  Inv st' /\ measure st' < measure (SECOND, t, added).
Proof.
  intros (HL & HN & H0 & HY & H1 & HP & HA). unfold nextStep. rewrite Bit_eqb.
  assert (Hr : time.Year t <= yearLimit /\ time.Year t <= maxYear) by (apply H1; cbn; lia).
  pose proof HP as (P2 & P3 & P4 & P5 & P6).
  assert (Yb : yearBit s t) by (apply P2; cbn; lia).
  assert (Mb : monthBit s t) by (apply P3; cbn; lia).
  assert (Db : dayMatches s t = true) by (apply P4; cbn; lia).
  destruct (Z.testbit (Second s) (time.Second t)) eqn:C; cbn [negb]; [discriminate|].
  destruct (next_second_body t loc added loc_fixed HL HN) as (L & N & Lt).
  set (u := time.Add _ (1 * Second_)) in *.
  assert (W : time.abs t < time.abs u <= time.abs t + 60) by lia.
  assert (Al : aligned s u) by (apply (aligned_within_minute t); auto).
  destruct (Z.eqb_spec (time.Second u) 0) as [Q | Q]; intros E; injection E as <-.
  - assert (Yn : time.Year u <= time.Year t + 1) by (apply (Year_step t u 1); lia).
    split.
    + apply nextInv_intro;
        [exact L | exact N | lia | lia | cbn [rank]; intros; lia
        | apply passed_low; cbn; lia | intros _; exact Al].
    + unfold nextMeasure. cbn [rank]. lia.
  - destruct (same_minute_fields t u (step_same_minute t u Lt Q)) as (Ix & EMi).
    destruct (same_hour_fields t u Ix) as (D & EH).
    destruct (same_day_fields u t D) as (EY & EM & ED). split.
    + apply nextInv_intro;
        [exact L | exact N | lia | lia | intros _; lia | | intros _; exact Al].
      apply (passed_same SECOND t); cbn [rank]; intros; try lia; auto.
    + unfold nextMeasure. cbn [rank]. lia.
Qed.

Lemma satisfies_intro t :
  yearBit s t -> time.Year t <= maxYear -> monthBit s t -> dayMatches s t = true ->
  Z.testbit (Hour s) (time.Hour t) = true -> Z.testbit (Minute s) (time.Minute t) = true ->
  Z.testbit (Second s) (time.Second t) = true -> satisfies s t = true.
Proof.
  unfold yearBit, monthBit, satisfies. intros [Y1 Y2] Y3 M D H Mi S.
  rewrite Y2, M, D, H, Mi, S.
  destruct (Z.leb_spec minYear (time.Year t)); [|lia].
  destruct (Z.leb_spec (time.Year t) maxYear); [reflexivity|lia].
Qed.

Lemma satisfies_elim t :
  satisfies s t = true ->
  yearBit s t /\ time.Year t <= maxYear /\ monthBit s t /\ dayMatches s t = true /\
  Z.testbit (Hour s) (time.Hour t) = true /\ Z.testbit (Minute s) (time.Minute t) = true /\
  Z.testbit (Second s) (time.Second t) = true.
Proof.
  unfold yearBit, monthBit, satisfies. intros H. rewrite !andb_true_iff in H.
  destruct H as (((((((A & B) & C) & D) & E) & F) & G) & I).
  apply Z.leb_le in A. apply Z.leb_le in B. tauto.
Qed.

Lemma nextStep_Goto st st' :
  Inv st -> step st = Goto st' -> Inv st' /\ measure st' < measure st.
Proof.
  destruct st as [[pc t] added].
  destruct pc; [apply next_WRAP | apply next_YEAR | apply next_MONTH | apply next_DAY
               | apply next_HOUR | apply next_MINUTE | apply next_SECOND].
Qed.

Lemma nextStep_Return st r :
  Inv st -> step st = Return r -> nextPost s loc origLocation yearLimit t0 r.
Proof.
  destruct st as [[pc t] added]. intros (HL & HN & H0 & HY & H1 & HP & HA).
  unfold nextStep, nextPost. destruct pc.
  - destruct ((time.Year t >? yearLimit) || (time.Year t >? maxYear));
      [|discriminate]. intros E. injection E as <-. left. reflexivity.
  - destruct ((time.Year t <? minYear) || _); [|discriminate].
    match goal with |- context [time.Year ?x >? yearLimit] =>
      destruct ((time.Year x >? yearLimit) || (time.Year x >? maxYear)) end;
      [|discriminate].
    intros E. injection E as <-. left. reflexivity.
  - destruct (_ =? 0); [|discriminate].
    match goal with |- context [if ?c then Goto _ else Goto _] => destruct c end;
      discriminate.
  - destruct (negb _); [|discriminate].
    match goal with |- context [if ?c then Goto _ else Goto _] => destruct c end;
      discriminate.
  - destruct (_ =? 0); [|discriminate].
    match goal with |- context [if ?c then Goto _ else Goto _] => destruct c end;
      discriminate.
  - destruct (_ =? 0); [|discriminate].
    match goal with |- context [if ?c then Goto _ else Goto _] => destruct c end;
      discriminate.
  - rewrite Bit_eqb. destruct (Z.testbit (Second s) (time.Second t)) eqn:C; cbn [negb].
    + intros E. injection E as <-. right. exists t.
      destruct HP as (P2 & P3 & P4 & P5 & P6).
      destruct (P2 ltac:(cbn; lia)) as [Yb Ym].
      assert (Hr : time.Year t <= yearLimit /\ time.Year t <= maxYear)
        by (apply H1; cbn; lia).
      repeat apply conj; auto; try lia.
      apply satisfies_intro; auto; [apply P3 | apply P4 | apply P5 | apply P6]; cbn; lia.
    + match goal with |- context [if ?c then Goto _ else Goto _] => destruct c end;
        discriminate.
Qed.

End NextInvariant.

(** ** The invariant of the backward walk *)

Section LatestInvariant.
Context {lz : LocalZone}.
Import calendar calendar_facts.
Variable s : SpecSchedule.
Variable loc origLocation : time.Location.
Variable yearLimit : Z.
Variable t0 : Time.
Hypothesis loc_fixed : fixed loc.

Local Notation "'step'" := (latestStep s loc origLocation yearLimit).
Local Notation "'Inv'" := (latestInv s loc yearLimit t0).
Local Notation "'measure'" := (latestMeasure yearLimit).

Lemma latestInv_intro pc t :
  Loc t = loc -> time.Nanosecond t = 0 -> time.abs t <= time.abs t0 ->
  yearLimit - 1 <= time.Year t ->
  (1 <= rank pc -> yearLimit <= time.Year t /\ minYear <= time.Year t) ->
  passed s pc t -> Inv (pc, t).
Proof. unfold latestInv. tauto. Qed.

(** A step back of at most a day reaches at most the preceding year. *)
Lemma Year_step_back t u :
  time.abs t - 86400 <= time.abs u <= time.abs t -> time.Year t - 1 <= time.Year u.
Proof.
  intros H. apply Year_back.
  assert (dayOf t - 1 <= dayOf u <= dayOf t) by (unfold dayOf; Z.div_mod_to_equations; lia).
  lia.
Qed.

Lemma latestMeasure_nonneg st : Inv st -> 0 <= measure st.
Proof.
  destruct st as [pc t]. intros (_ & _ & _ & HY & _). unfold latestMeasure.
  pose proof (Year_days t) as [D _].
  assert (daysBeforeYear (yearLimit - 1) <= daysBeforeYear (time.Year t))
    by (apply daysBeforeYear_le; lia).
  assert (dayOf t * 86400 <= time.abs t) by (unfold dayOf; Z.div_mod_to_equations; lia).
  assert (0 <= 6 - rank pc) by (destruct pc; cbn; lia).
  nia.
Qed.

Lemma latest_WRAP t st' :
  Inv (WRAP, t) -> step (WRAP, t) = Goto st' -> Inv st' /\ measure st' < measure (WRAP, t).
Proof.
  intros (HL & HN & H0 & HY & H1 & HP). unfold latestStep.
  destruct (Z.ltb_spec (time.Year t) yearLimit); [discriminate|].
  destruct (Z.ltb_spec (time.Year t) minYear); [discriminate|]. cbn [orb].
  intros E. injection E as <-. split.
  - apply latestInv_intro;
      [exact HL | exact HN | exact H0 | exact HY | intros _; lia
      | apply passed_low; cbn; lia].
  - unfold latestMeasure. cbn [rank]. lia.
Qed.

Lemma latest_YEAR t st' :
  Inv (YEAR, t) -> step (YEAR, t) = Goto st' -> Inv st' /\ measure st' < measure (YEAR, t).
Proof.
  intros (HL & HN & H0 & HY & H1 & HP). unfold latestStep. rewrite Bit_eqb.
  assert (Hr : yearLimit <= time.Year t /\ minYear <= time.Year t) by (apply H1; cbn; lia).
  destruct ((time.Year t >? maxYear) || negb (Z.testbit (Year s) (time.Year t - minYear)))
    eqn:C.
  - destruct (latest_year_body t loc loc_fixed) as (L & N & Lt & Y).
    set (u := time.Add _ (- Second_)) in *.
    destruct (Z.ltb_spec (time.Year u) yearLimit); [discriminate|].
    destruct (Z.ltb_spec (time.Year u) minYear); [discriminate|]. cbn [orb].
    intros E. injection E as <-. split.
    + apply latestInv_intro;
        [exact L | exact N | lia | lia | intros _; lia | apply passed_low; cbn; lia].
    + unfold latestMeasure. cbn [rank]. lia.
  - intros E. injection E as <-. split.
    + apply orb_false_iff in C. destruct C as [C1 C2]. apply negb_false_iff in C2.
      destruct (Z.gtb_spec (time.Year t) maxYear); [discriminate|].
      apply latestInv_intro;
        [exact HL | exact HN | exact H0 | exact HY | intros _; exact Hr | ].
      unfold passed, yearBit. cbn [rank].
      split; [intros _; repeat apply conj; auto; lia|]. repeat apply conj; intros; lia.
    + unfold latestMeasure. cbn [rank]. lia.
Qed.

Lemma latest_MONTH t st' :
  Inv (MONTH, t) -> step (MONTH, t) = Goto st' ->
  Inv st' /\ measure st' < measure (MONTH, t).
Proof.
  intros (HL & HN & H0 & HY & H1 & HP). unfold latestStep. rewrite Bit_eqb.
  assert (Hr : yearLimit <= time.Year t /\ minYear <= time.Year t) by (apply H1; cbn; lia).
  pose proof HP as (P2 & P3 & P4 & P5 & P6).
  destruct (P2 ltac:(cbn; lia)) as [Yb Ym].
  destruct (Z.testbit (Month s) (time.Month t)) eqn:C; cbn [negb].
  - intros E. injection E as <-. split.
    + apply latestInv_intro;
        [exact HL | exact HN | exact H0 | exact HY | intros _; exact Hr | ].
      solve_passed.
    + unfold latestMeasure. cbn [rank]. lia.
  - destruct (latest_month_body t loc loc_fixed) as (L & N & Lt & Cs).
    set (u := time.Add _ (- Second_)) in *. pose proof (Month_range t) as Mr.
    destruct (Z.eqb_spec (time.Month u) 12) as [M12 | M12]; intros E; injection E as <-.
    + split.
      * apply latestInv_intro;
          [exact L | exact N | lia | | cbn [rank]; intros; lia
          | apply passed_low; cbn; lia].
        destruct Cs as [(_ & _ & EY) | (_ & _ & EY)]; lia.
      * unfold latestMeasure. cbn [rank]. lia.
    + destruct Cs as [(_ & EM & _) | (Lm & EM & EY)]; [congruence|]. split.
      * apply latestInv_intro; [exact L | exact N | lia | lia | intros _; lia | ].
        apply (passed_same s MONTH t); cbn [rank]; intros; try lia; auto.
      * unfold latestMeasure. cbn [rank]. lia.
Qed.

Lemma latest_DAY t st' :
  Inv (DAY, t) -> step (DAY, t) = Goto st' -> Inv st' /\ measure st' < measure (DAY, t).
Proof.
  intros (HL & HN & H0 & HY & H1 & HP). unfold latestStep.
  assert (Hr : yearLimit <= time.Year t /\ minYear <= time.Year t) by (apply H1; cbn; lia).
  pose proof HP as (P2 & P3 & P4 & P5 & P6).
  destruct (dayMatches s t) eqn:C; cbn [negb].
  - intros E. injection E as <-. split.
    + apply latestInv_intro;
        [exact HL | exact HN | exact H0 | exact HY | intros _; exact Hr | ].
      solve_passed.
    + unfold latestMeasure. cbn [rank]. lia.
  - destruct (latest_day_body t loc loc_fixed) as (L & N & Lt & D).
    set (u := time.Add _ (- Second_)) in *.
    assert (Yn : time.Year t - 1 <= time.Year u) by (apply Year_back; lia).
    destruct (Z.eqb_spec (time.Day t) 1) as [D1 | D1]; intros E; injection E as <-.
    + split.
      * apply latestInv_intro;
          [exact L | exact N | lia | lia | cbn [rank]; intros; lia
          | apply passed_low; cbn; lia].
      * unfold latestMeasure. cbn [rank]. lia.
    + destruct (prev_day_fields t u D) as [(K & _) | [(K & _) | (_ & EY & EM)]];
        try contradiction.
      split.
      * apply latestInv_intro; [exact L | exact N | lia | lia | intros _; lia | ].
        apply (passed_same s DAY t); cbn [rank]; intros; try lia; auto.
      * unfold latestMeasure. cbn [rank]. lia.
Qed.

Lemma latest_HOUR t st' :
  Inv (HOUR, t) -> step (HOUR, t) = Goto st' -> Inv st' /\ measure st' < measure (HOUR, t).
Proof.
  intros (HL & HN & H0 & HY & H1 & HP). unfold latestStep. rewrite Bit_eqb.
  assert (Hr : yearLimit <= time.Year t /\ minYear <= time.Year t) by (apply H1; cbn; lia).
  pose proof HP as (P2 & P3 & P4 & P5 & P6).
  destruct (Z.testbit (Hour s) (time.Hour t)) eqn:C; cbn [negb].
  - intros E. injection E as <-. split.
    + apply latestInv_intro;
        [exact HL | exact HN | exact H0 | exact HY | intros _; exact Hr | ].
      solve_passed.
    + unfold latestMeasure. cbn [rank]. lia.
  - destruct (latest_hour_body t loc loc_fixed) as (L & N & Lt & Ix).
    set (u := time.Add _ (- Second_)) in *.
    assert (Bk : time.abs t - 86400 <= time.abs u <= time.abs t)
      by (split; [Z.div_mod_to_equations|]; lia).
    pose proof (Year_step_back t u Bk) as Yn.
    destruct (Z.eqb_spec (time.Hour t) 0) as [Hz | Hz]; intros E; injection E as <-.
    + split.
      * apply latestInv_intro;
          [exact L | exact N | lia | lia | cbn [rank]; intros; lia
          | apply passed_low; cbn; lia].
      * unfold latestMeasure. cbn [rank]. lia.
    + pose proof (prev_hour_fields t u Ix Hz) as D.
      destruct (same_day_fields u t D) as (EY & EM & ED). split.
      * apply latestInv_intro; [exact L | exact N | lia | lia | intros _; lia | ].
        apply (passed_same s HOUR t); cbn [rank]; intros; try lia; auto.
      * unfold latestMeasure. cbn [rank]. lia.
Qed.

Lemma latest_MINUTE t st' :
  Inv (MINUTE, t) -> step (MINUTE, t) = Goto st' ->
  Inv st' /\ measure st' < measure (MINUTE, t).
Proof.
  intros (HL & HN & H0 & HY & H1 & HP). unfold latestStep. rewrite Bit_eqb.
  assert (Hr : yearLimit <= time.Year t /\ minYear <= time.Year t) by (apply H1; cbn; lia).
  pose proof HP as (P2 & P3 & P4 & P5 & P6).
  destruct (Z.testbit (Minute s) (time.Minute t)) eqn:C; cbn [negb].
  - intros E. injection E as <-. split.
    + apply latestInv_intro;
        [exact HL | exact HN | exact H0 | exact HY | intros _; exact Hr | ].
      solve_passed.
    + unfold latestMeasure. cbn [rank]. lia.
  - assert (Ft : fixed (Loc t)) by (rewrite HL; exact loc_fixed).
    destruct (latest_minute_body t Ft HN) as (L & N & Lt).
    set (u := time.Add _ (- Second_)) in *.
    assert (Bk : time.abs t - 86400 <= time.abs u <= time.abs t) by lia.
    pose proof (Year_step_back t u Bk) as Yn.
    destruct (Z.eqb_spec (time.Minute t) 0) as [Hz | Hz]; intros E; injection E as <-.
    + split.
      * apply latestInv_intro;
          [congruence | exact N | lia | lia | cbn [rank]; intros; lia
          | apply passed_low; cbn; lia].
      * unfold latestMeasure. cbn [rank]. lia.
    + destruct (same_hour_fields t u (back_same_hour t u Lt Hz)) as (D & EH).
      destruct (same_day_fields u t D) as (EY & EM & ED). split.
      * apply latestInv_intro; [congruence | exact N | lia | lia | intros _; lia | ].
        apply (passed_same s MINUTE t); cbn [rank]; intros; try lia; auto.
      * unfold latestMeasure. cbn [rank]. lia.
Qed.

Lemma latest_SECOND t st' :
  Inv (SECOND, t) -> step (SECOND, t) = Goto st' ->
  Inv st' /\ measure st' < measure (SECOND, t).
Proof.
  intros (HL & HN & H0 & HY & H1 & HP). unfold latestStep. rewrite Bit_eqb.
  assert (Hr : yearLimit <= time.Year t /\ minYear <= time.Year t) by (apply H1; cbn; lia).
  pose proof HP as (P2 & P3 & P4 & P5 & P6).
  destruct (Z.testbit (Second s) (time.Second t)) eqn:C; cbn [negb]; [discriminate|].
  assert (Ft : fixed (Loc t)) by (rewrite HL; exact loc_fixed).
  destruct (latest_second_body t Ft HN) as (L & N & Lt).
  set (u := time.Add _ (- Second_)) in *.
  assert (Bk : time.abs t - 86400 <= time.abs u <= time.abs t) by lia.
  pose proof (Year_step_back t u Bk) as Yn.
  destruct (Z.eqb_spec (time.Second t) 0) as [Hz | Hz]; intros E; injection E as <-.
  - split.
    + apply latestInv_intro;
        [congruence | exact N | lia | lia | cbn [rank]; intros; lia
        | apply passed_low; cbn; lia].
    + unfold latestMeasure. cbn [rank]. lia.
  - destruct (same_minute_fields t u (back_same_minute t u Lt Hz)) as (Ix & EMi).
    destruct (same_hour_fields t u Ix) as (D & EH).
    destruct (same_day_fields u t D) as (EY & EM & ED). split.
    + apply latestInv_intro; [congruence | exact N | lia | lia | intros _; lia | ].
      apply (passed_same s SECOND t); cbn [rank]; intros; try lia; auto.
    + unfold latestMeasure. cbn [rank]. lia.
Qed.

Lemma latestStep_Goto st st' :
  Inv st -> step st = Goto st' -> Inv st' /\ measure st' < measure st.
Proof.
  destruct st as [pc t].
  destruct pc; [apply latest_WRAP | apply latest_YEAR | apply latest_MONTH
               | apply latest_DAY | apply latest_HOUR | apply latest_MINUTE
               | apply latest_SECOND].
Qed.

Lemma latestStep_Return st r :
  Inv st -> step st = Return r -> latestPost s loc origLocation yearLimit t0 r.
Proof.
  destruct st as [pc t]. intros (HL & HN & H0 & HY & H1 & HP).
  unfold latestStep, latestPost. destruct pc.
  - destruct ((time.Year t <? yearLimit) || (time.Year t <? minYear));
      [|discriminate]. intros E. injection E as <-. left. reflexivity.
  - destruct ((time.Year t >? maxYear) || _); [|discriminate].
    match goal with |- context [time.Year ?x <? yearLimit] =>
      destruct ((time.Year x <? yearLimit) || (time.Year x <? minYear)) end;
      [|discriminate].
    intros E. injection E as <-. left. reflexivity.
  - destruct (_ =? 0); [|discriminate].
    match goal with |- context [if ?c then Goto _ else Goto _] => destruct c end;
      discriminate.
  - destruct (negb _); [|discriminate].
    match goal with |- context [if ?c then Goto _ else Goto _] => destruct c end;
      discriminate.
  - destruct (_ =? 0); [|discriminate].
    match goal with |- context [if ?c then Goto _ else Goto _] => destruct c end;
      discriminate.
  - destruct (_ =? 0); [|discriminate].
    match goal with |- context [if ?c then Goto _ else Goto _] => destruct c end;
      discriminate.
  - rewrite Bit_eqb. destruct (Z.testbit (Second s) (time.Second t)) eqn:C; cbn [negb].
    + intros E. injection E as <-. right. exists t.
      destruct HP as (P2 & P3 & P4 & P5 & P6).
      destruct (P2 ltac:(cbn; lia)) as [Yb Ym].
      assert (Hr : yearLimit <= time.Year t /\ minYear <= time.Year t)
        by (apply H1; cbn; lia).
      repeat apply conj; auto; try lia.
      apply satisfies_intro; auto; [apply P3 | apply P4 | apply P5 | apply P6]; cbn; lia.
    + match goal with |- context [if ?c then Goto _ else Goto _] => destruct c end;
        discriminate.
Qed.

End LatestInvariant.

(** ** The two searches *)

Section Searches.
Context {lz : LocalZone}.
Import calendar calendar_facts.

Lemma inSchedule_props s t :
  unixNano (inSchedule s t) = unixNano t /\ Loc (inSchedule s t) = searchLoc s t.
Proof.
  unfold inSchedule, searchLoc, time.Location_. destruct (isLocal (Location s)); cbn; auto.
Qed.

Lemma nextStart_props s t :
  Loc (nextStart s t) = searchLoc s t /\ time.Nanosecond (nextStart s t) = 0 /\
  unixNano t < unixNano (nextStart s t) /\
  unixNano (inSchedule s t) <= unixNano (nextStart s t).
Proof.
  destruct (inSchedule_props s t) as [U L]. unfold nextStart.
  unfold time.Nanosecond, time.Add. cbn [unixNano Loc].
  rewrite U, L. unfold Nanosecond_. rewrite Second_val.
  repeat apply conj; auto; Z.div_mod_to_equations; lia.
Qed.

(** In a location without transitions the clock follows the instant. *)
Lemma abs_mono t u :
  Loc t = Loc u -> fixed (Loc t) -> unixNano t <= unixNano u -> time.abs t <= time.abs u.
Proof.
  intros L F H. rewrite (abs_fixed t F), abs_fixed by (rewrite <- L; exact F). rewrite L.
  unfold time.unixSec. rewrite Second_val. Z.div_mod_to_equations; lia.
Qed.

Lemma latestStart_props s t :
  Loc (latestStart s t) = searchLoc s t /\ time.Nanosecond (latestStart s t) = 0 /\
  unixNano (latestStart s t) <= unixNano t.
Proof.
  destruct (inSchedule_props s t) as [U L]. unfold latestStart, time.Truncate.
  change (Second_ <=? 0) with false. cbv iota.
  unfold time.Nanosecond, time.Add, zeroTime. cbn [unixNano Loc].
  rewrite U, L, unixToInternal_val, Second_val.
  repeat apply conj; auto; Z.div_mod_to_equations; lia.
Qed.

(** Whole-second instants of one location compare as their clocks do. *)
Lemma unixNano_le t u :
  Loc t = Loc u -> fixed (Loc t) -> time.Nanosecond t = 0 -> time.Nanosecond u = 0 ->
  time.abs t <= time.abs u -> unixNano t <= unixNano u.
Proof.
  intros L F Nt Nu A.
  rewrite (unixNano_whole t F Nt), unixNano_whole by (rewrite <- ?L; assumption).
  rewrite L, Second_val. lia.
Qed.

(** [Next] returns, and what it returns meets [nextPost]. *)
Lemma Next_returns s t :
  fixed (searchLoc s t) ->
  exists fuel r,
    Next fuel s t = Some r /\
    nextPost s (searchLoc s t) (time.Location_ t) (time.Year (nextStart s t) + 5)
             (nextStart s t) r.
Proof.
  intros Fx. destruct (nextStart_props s t) as (L & N & _).
  unfold Next.
  apply (run_terminates _ _
           (nextInv s (searchLoc s t) (time.Year (nextStart s t) + 5) (nextStart s t))
           _ (nextMeasure (time.Year (nextStart s t) + 5))).
  - apply nextStep_Goto. exact Fx.
  - apply nextStep_Return.
  - apply nextMeasure_nonneg.
  - apply nextInv_intro;
      [exact L | exact N | lia | lia | cbn [rank]; intros; lia
      | apply passed_low; cbn; lia | discriminate].
Qed.

Lemma Latest_returns s t :
  fixed (searchLoc s t) ->
  exists fuel r,
    Latest fuel s t = Some r /\
    latestPost s (searchLoc s t) (time.Location_ t) (time.Year (latestStart s t) - 5)
               (latestStart s t) r.
Proof.
  intros Fx. destruct (latestStart_props s t) as (L & N & _).
  unfold Latest.
  apply (run_terminates _ _
           (latestInv s (searchLoc s t) (time.Year (latestStart s t) - 5) (latestStart s t))
           _ (latestMeasure (time.Year (latestStart s t) - 5))).
  - apply latestStep_Goto. exact Fx.
  - apply latestStep_Return.
  - apply latestMeasure_nonneg.
  - apply latestInv_intro;
      [exact L | exact N | lia | lia | cbn [rank]; intros; lia
      | apply passed_low; cbn; lia].
Qed.

Lemma NextReturns_post s t r :
  fixed (searchLoc s t) -> NextReturns s t r ->
  nextPost s (searchLoc s t) (time.Location_ t) (time.Year (nextStart s t) + 5)
           (nextStart s t) r.
Proof.
  intros Fx [fuel H]. destruct (Next_returns s t Fx) as (fuel' & r' & H' & P).
  unfold Next in *. rewrite (run_deterministic _ _ _ _ _ _ _ H H'). exact P.
Qed.

Lemma LatestReturns_post s t r :
  fixed (searchLoc s t) -> LatestReturns s t r ->
  latestPost s (searchLoc s t) (time.Location_ t) (time.Year (latestStart s t) - 5)
             (latestStart s t) r.
Proof.
  intros Fx [fuel H]. destruct (Latest_returns s t Fx) as (fuel' & r' & H' & P).
  unfold Latest in *. rewrite (run_deterministic _ _ _ _ _ _ _ H H'). exact P.
Qed.

Lemma NextReturns_total s t : fixed (searchLoc s t) -> exists r, NextReturns s t r.
Proof.
  intros Fx. destruct (Next_returns s t Fx) as (fuel & r & H & _). exists r, fuel. exact H.
Qed.

Lemma LatestReturns_total s t : fixed (searchLoc s t) -> exists r, LatestReturns s t r.
Proof.
  intros Fx. destruct (Latest_returns s t Fx) as (fuel & r & H & _). exists r, fuel. exact H.
Qed.

Lemma NextReturns_unique s t r r' : NextReturns s t r -> NextReturns s t r' -> r = r'.
Proof. intros [f H] [f' H']. unfold Next in *. apply (run_deterministic _ _ _ _ _ _ _ H H'). Qed.

Lemma LatestReturns_unique s t r r' : LatestReturns s t r -> LatestReturns s t r' -> r = r'.
Proof.
  intros [f H] [f' H']. unfold Latest in *. apply (run_deterministic _ _ _ _ _ _ _ H H').
Qed.

(** On an instant that satisfies the schedule every loop head passes on to
    the next. *)
Lemma nextStep_pass s loc origLocation yearLimit t added :
  satisfies s t = true -> time.Year t <= yearLimit ->
  let step := nextStep s loc origLocation yearLimit in
  step (WRAP, t, added) = Goto (YEAR, t, added) /\
  step (YEAR, t, added) = Goto (MONTH, t, added) /\
  step (MONTH, t, added) = Goto (DAY, t, added) /\
  step (DAY, t, added) = Goto (HOUR, t, added) /\
  step (HOUR, t, added) = Goto (MINUTE, t, added) /\
  step (MINUTE, t, added) = Goto (SECOND, t, added) /\
  step (SECOND, t, added) = Return (time.In t origLocation).
Proof.
  intros H Hy. apply satisfies_elim in H.
  destruct H as ((Y1 & Y2) & Y3 & M & D & Hh & Mi & Se).
  unfold monthBit in M. cbv zeta. unfold nextStep. rewrite !Bit_eqb.
  rewrite Y2, M, D, Hh, Mi, Se. cbn [negb].
  destruct (Z.gtb_spec (time.Year t) yearLimit); [lia|].
  destruct (Z.gtb_spec (time.Year t) maxYear); [lia|].
  destruct (Z.ltb_spec (time.Year t) minYear); [lia|].
  cbn [orb]. repeat apply conj; reflexivity.
Qed.

Lemma nextWalk_at_match s loc origLocation yearLimit t added :
  satisfies s t = true -> time.Year t <= yearLimit ->
  run (nextStep s loc origLocation yearLimit) 7 (WRAP, t, added)
    = Some (time.In t origLocation).
Proof.
  intros H Hy.
  destruct (nextStep_pass s loc origLocation yearLimit t added H Hy)
    as (E1 & E2 & E3 & E4 & E5 & E6 & E7).
  cbv zeta in *.
  rewrite run_S, E1, run_S, E2, run_S, E3, run_S, E4, run_S, E5, run_S, E6, run_S, E7.
  reflexivity.
Qed.

(** The forward search from one second before a whole-second instant
    starts on that instant. *)
Lemma nextStart_pred s t origLocation :
  time.Nanosecond t = 0 -> Loc t = searchLoc s (time.In t origLocation) ->
  nextStart s (time.Add (time.In t origLocation) (- Second_)) = t.
Proof.
  intros N L. unfold nextStart, inSchedule, searchLoc, time.Location_ in *.
  destruct t as [n l]. unfold time.Nanosecond, time.Add, time.In in *. cbn [unixNano Loc] in *.
  unfold Nanosecond_. rewrite Second_val in *.
  destruct (isLocal (Location s)); cbn [negb unixNano Loc]; subst l; f_equal;
    Z.div_mod_to_equations; lia.
Qed.

End Searches.

(** ** Whole seconds, in every location *)

Section WholeSeconds.
Context {lz : LocalZone}.

Lemma Nanosecond_Date y m d h mi sec ns loc :
  0 <= ns < 1000000000 -> time.Nanosecond (time.Date y m d h mi sec ns loc) = ns.
Proof.
  intros Hns. unfold time.Date, time.norm. cbv zeta.
  destruct (time.lookup loc _) as [[o st] en].
  rewrite Second_val. rewrite (Z.mod_small ns) by lia.
  match goal with |- time.Nanosecond (mkTime (?u * _ + ns) loc) = ns =>
    pose proof (mkTime_whole u ns loc Hns) as [_ N]; rewrite Second_val in N; exact N
  end.
Qed.

Lemma Nanosecond_AddDate t dy dm dd :
  time.Nanosecond (time.AddDate t dy dm dd) = time.Nanosecond t.
Proof.
  unfold time.AddDate. destruct (time.absDate t) as [[y m] d].
  apply Nanosecond_Date. apply Nanosecond_range.
Qed.

Lemma Nanosecond_Add_whole t d :
  d mod 1000000000 = 0 -> time.Nanosecond (time.Add t d) = time.Nanosecond t.
Proof.
  intros D. unfold time.Nanosecond, time.Add. cbn [unixNano]. rewrite Second_val.
  Z.div_mod_to_equations; lia.
Qed.

Lemma Nanosecond_Add_hours t k : time.Nanosecond (time.Add t (k * Hour_)) = time.Nanosecond t.
Proof.
  replace (k * Hour_) with ((k * 3600) * Second_) by (unfold Hour_, Minute_; lia).
  apply Nanosecond_Add.
Qed.

Lemma Nanosecond_Add_minutes t k :
  time.Nanosecond (time.Add t (k * Minute_)) = time.Nanosecond t.
Proof.
  replace (k * Minute_) with ((k * 60) * Second_) by (unfold Minute_; lia).
  apply Nanosecond_Add.
Qed.

Lemma Nanosecond_minus_Second t : time.Nanosecond (time.Add t (- Second_)) = time.Nanosecond t.
Proof. rewrite minus_Second. apply Nanosecond_Add. Qed.

Lemma Nanosecond_Truncate_Minute t :
  time.Nanosecond t = 0 -> time.Nanosecond (time.Truncate t Minute_) = 0.
Proof.
  intros N. unfold time.Truncate. change (Minute_ <=? 0) with false. cbv iota.
  unfold time.Nanosecond, time.Add, zeroTime in *. cbn [unixNano] in *.
  unfold Minute_. rewrite unixToInternal_val, Second_val in *. Z.div_mod_to_equations; lia.
Qed.

Lemma Nanosecond_Truncate_Second t :
  time.Nanosecond t = 0 -> time.Nanosecond (time.Truncate t Second_) = 0.
Proof. intros N. rewrite (Truncate_Second t N). exact N. Qed.

Lemma Nanosecond_In t loc : time.Nanosecond (time.In t loc) = time.Nanosecond t.
Proof. reflexivity. Qed.

Lemma Nanosecond_zeroTime : time.Nanosecond time.zeroTime = 0.
Proof. reflexivity. Qed.

Variable s : SpecSchedule.
Variable loc origLocation : time.Location.
Variable yearLimit : Z.

Lemma nextStep_whole_Goto st st' :
  time.Nanosecond (snd (fst st)) = 0 ->
  nextStep s loc origLocation yearLimit st = Goto st' ->
  time.Nanosecond (snd (fst st')) = 0.
Proof.
  destruct st as [[pc t] added]. cbn [fst snd]. intros N.
  assert (ND : forall y m d h, time.Nanosecond (time.Date y m d h 0 0 0 loc) = 0)
    by (intros; apply Nanosecond_Date; lia).
  unfold nextStep. destruct pc.
  - destruct (_ || _); [discriminate|]. intros E. injection E as <-. exact N.
  - destruct (_ || _).
    + destruct (_ || _); [discriminate|]. intros E. injection E as <-. cbn [fst snd].
      rewrite Nanosecond_AddDate. destruct (negb added); auto.
    + intros E. injection E as <-. exact N.
  - destruct (_ =? 0).
    + match goal with |- context [if ?c then Goto _ else Goto _] => destruct c end;
        intros E; injection E as <-; cbn [fst snd];
        rewrite Nanosecond_AddDate; destruct (negb added); auto.
    + intros E. injection E as <-. exact N.
  - destruct (negb (dayMatches s t)).
    + set (t2 := time.AddDate _ 0 0 1).
      assert (N2 : time.Nanosecond t2 = 0)
        by (subst t2; rewrite Nanosecond_AddDate; destruct (negb added); auto).
      set (u := if negb (time.Hour t2 =? 0) then _ else t2).
      assert (Nu : time.Nanosecond u = 0).
      { subst u. destruct (negb (time.Hour t2 =? 0)); [|exact N2].
        destruct (time.Hour t2 >? 12); rewrite Nanosecond_Add_hours; exact N2. }
      destruct (time.Day u =? 1); intros E; injection E as <-; exact Nu.
    + intros E. injection E as <-. exact N.
  - destruct (_ =? 0).
    + match goal with |- context [if ?c then Goto _ else Goto _] => destruct c end;
        intros E; injection E as <-; cbn [fst snd];
        rewrite Nanosecond_Add_whole by reflexivity; destruct (negb added); auto.
    + intros E. injection E as <-. exact N.
  - destruct (_ =? 0).
    + match goal with |- context [if ?c then Goto _ else Goto _] => destruct c end;
        intros E; injection E as <-; cbn [fst snd];
        rewrite Nanosecond_Add_whole by reflexivity; destruct (negb added); auto;
        apply Nanosecond_Truncate_Minute; auto.
    + intros E. injection E as <-. exact N.
  - destruct (_ =? 0); [|discriminate].
    match goal with |- context [if ?c then Goto _ else Goto _] => destruct c end;
      intros E; injection E as <-; cbn [fst snd];
      rewrite Nanosecond_Add_whole by reflexivity; destruct (negb added); auto;
      apply Nanosecond_Truncate_Second; auto.
Qed.

Lemma nextStep_whole_Return st r :
  time.Nanosecond (snd (fst st)) = 0 ->
  nextStep s loc origLocation yearLimit st = Return r -> time.Nanosecond r = 0.
Proof.
  destruct st as [[pc t] added]. cbn [fst snd]. intros N. unfold nextStep.
  destruct pc;
    repeat match goal with
           | |- context [if ?c then _ else _] => destruct c
           end;
    try discriminate; intros E; injection E as <-; auto.
Qed.

Lemma latestStep_whole_Goto st st' :
  time.Nanosecond (snd st) = 0 ->
  latestStep s loc origLocation yearLimit st = Goto st' ->
  time.Nanosecond (snd st') = 0.
Proof.
  destruct st as [pc t]. cbn [fst snd]. intros N.
  assert (ND : forall y m d h, time.Nanosecond (time.Date y m d h 0 0 0 loc) = 0)
    by (intros; apply Nanosecond_Date; lia).
  unfold latestStep. destruct pc;
    repeat match goal with
           | |- context [if ?c then _ else _] => destruct c
           end;
    try discriminate; intros E; injection E as <-; cbn [fst snd]; auto;
    rewrite Nanosecond_Add_whole by reflexivity; auto;
    first [apply Nanosecond_Truncate_Minute | apply Nanosecond_Truncate_Second]; auto.
Qed.

Lemma latestStep_whole_Return st r :
  time.Nanosecond (snd st) = 0 ->
  latestStep s loc origLocation yearLimit st = Return r -> time.Nanosecond r = 0.
Proof.
  destruct st as [pc t]. cbn [fst snd]. intros N. unfold latestStep.
  destruct pc;
    repeat match goal with
           | |- context [if ?c then _ else _] => destruct c
           end;
    try discriminate; intros E; injection E as <-; auto.
Qed.

End WholeSeconds.

(** ** Locations with transitions *)

Section Stalls.
Context {lz : LocalZone}.
Import calendar calendar_facts.

Lemma testbit_bit i j : 0 <= i -> Z.testbit (bit i) j = true -> j = i.
Proof.
  intros Hi H. unfold bit in H. rewrite Z.shiftl_1_l in H.
  rewrite Z.pow2_bits_eqb in H by exact Hi. apply Z.eqb_eq in H. auto.
Qed.

(** No instant reads December 30, 2011 on the clock of Apia: the day was
    skipped when the zone moved across the date line. *)
Lemma no_december_30_in_Apia u :
  Loc u = pacificApia ->
  ~ (time.Year u = 2011 /\ time.Month u = 12 /\ time.Day u = 30).
Proof.
  intros L (Y & M & D).
  pose proof (fields_dayNumber u) as E. rewrite Y, M, D in E.
  assert (K : dayNumber 2011 12 30 = 734500) by (vm_compute; reflexivity).
  rewrite K in E. unfold dayOf in E.
  assert (A : time.abs u = time.unixSec u + time.offsetAt pacificApia (time.unixSec u)
                           + 62135596800) by (unfold time.abs; rewrite L; reflexivity).
  unfold time.offsetAt, time.lookup, pacificApia in A. cbn [zoneOf fst snd lookupTx] in A.
  repeat match type of A with
         | context [if ?x <? ?c then _ else _] => destruct (Z.ltb_spec x c)
         end; cbn [fst] in A; Z.div_mod_to_equations; lia.
Qed.

End Stalls.

(** ** Properties of the day matcher and of the end-of-month projector *)

(** C4: the day matcher takes the plain day-of-month bit or membership of
    the day in the projected end-of-month set, and the plain day-of-week bit
    or membership of the day in the projected last-weekday set; it requires
    both when the flag bit 160 is set on [Dom] or on [Dow], and either one
    when it is set on neither. *)
Theorem dayMatches_and_or {lz : LocalZone} (s : SpecSchedule) (t : Time) :
  dayMatches s t =
    (let domMatch :=
       Z.testbit (Dom s) (time.Day t) || Z.testbit (fst (eomBits s t)) (time.Day t) in
     let dowMatch :=
       Z.testbit (Dow s) (time.Weekday t) || Z.testbit (snd (eomBits s t)) (time.Day t) in
     if Z.testbit (Dom s) maxBits || Z.testbit (Dow s) maxBits
     then domMatch && dowMatch else domMatch || dowMatch).
Proof. exact (dayMatches_bits s t). Qed.

(** C9: for non-negative [Dom] and [Dow], [eomBits] returns (0, 0) at
    every instant: each guard looks up the one bit at index
    0x00FF000000000000 (0x00FE000000000000), which is clear in an integer
    whose size stays below that index.  So [dayMatches] reads the plain
    [Dom] bit of the day, the plain [Dow] bit of the weekday and the flag
    bit 160 only, and the request bits 48 - 55 never change its verdict. *)
Theorem eomBits_inert {lz : LocalZone} (s : SpecSchedule) (t : Time)
    (HDom : 0 <= Dom s) (HDow : 0 <= Dow s) :
  eomBits s t = (0, 0) /\
  (Z.log2 (Dom s) < 0x00FF000000000000 -> big.Bit (Dom s) 0x00FF000000000000 = 0) /\
  (Z.log2 (Dow s) < 0x00FE000000000000 -> big.Bit (Dow s) 0x00FE000000000000 = 0) /\
  dayMatches s t =
    (let domMatch := Z.testbit (Dom s) (time.Day t) in
     let dowMatch := Z.testbit (Dow s) (time.Weekday t) in
     if Z.testbit (Dom s) maxBits || Z.testbit (Dow s) maxBits
     then domMatch && dowMatch else domMatch || dowMatch) /\
  (forall s', sameOutsideRequests (Dom s) (Dom s') -> sameOutsideRequests (Dow s) (Dow s') ->
              dayMatches s' t = dayMatches s t).
Proof.
  split; [apply eomBits_zero|].
  split; [intros H; apply Bit_above; assumption|].
  split; [intros H; apply Bit_above; assumption|].
  split; [apply dayMatches_plain|].
  intros s' ADom ADow. rewrite !dayMatches_plain.
  pose proof (Day_range t). pose proof (Weekday_range t).
  rewrite <- (ADom (time.Day t)), <- (ADom maxBits) by (unfold maxBits; lia).
  rewrite <- (ADow (time.Weekday t)), <- (ADow maxBits) by (unfold maxBits; lia).
  reflexivity.
Qed.

Lemma eomBits_inert_witness :
  let s := lastDayOfFebruary in
  let t := @time.Date hostUTC 2024 2 29 0 0 0 0 UTC in
  0 <= Dom s /\ 0 <= Dow s /\ @eomBits hostUTC s t = (0, 0).
Proof.
  split; [vm_compute; discriminate|].
  split; [vm_compute; discriminate|].
  apply (@eomBits_inert hostUTC lastDayOfFebruary (@time.Date hostUTC 2024 2 29 0 0 0 0 UTC));
    vm_compute; discriminate.
Defined.

(** C5, on the code: the request "last day" (bit 55 of [Dom]) is set, the
    month is February of the leap year 2024, and no day is projected: the
    29th does not match, and the search from January 1, 2024 ends with the
    zero time. *)
Theorem last_day_request_not_projected {lz : LocalZone} :
  let feb29 := time.Date 2024 2 29 0 0 0 0 UTC in
  Z.testbit (Dom lastDayOfFebruary) 55 = true /\
  eomBits lastDayOfFebruary feb29 = (0, 0) /\
  dayMatches lastDayOfFebruary feb29 = false /\
  Next 1000 lastDayOfFebruary (time.Date 2024 1 1 0 0 0 0 UTC) = Some time.zeroTime.
Proof. cbv zeta. repeat apply conj; vm_compute; reflexivity. Qed.

(** C6, on the code: the request "last Friday" (bit 54 of [Dow]) is set;
    May 2024 ends on Friday the 31st and April 2024 on Tuesday the 30th, and
    in neither month a day is projected: neither May 31 nor April 26
    matches. *)
Theorem last_weekday_request_not_projected {lz : LocalZone} :
  let may31 := time.Date 2024 5 31 0 0 0 0 UTC in
  let apr30 := time.Date 2024 4 30 0 0 0 0 UTC in
  let apr26 := time.Date 2024 4 26 0 0 0 0 UTC in
  Z.testbit (Dow lastFriday) 54 = true /\
  time.Weekday may31 = 5 /\ time.Weekday apr30 = 2 /\ time.Weekday apr26 = 5 /\
  eomBits lastFriday may31 = (0, 0) /\ dayMatches lastFriday may31 = false /\
  eomBits lastFriday apr30 = (0, 0) /\ dayMatches lastFriday apr26 = false.
Proof. cbv zeta. repeat apply conj; vm_compute; reflexivity. Qed.

(** C7, on the code: in a zone 30 seconds east of UTC the minute loop
    rounds down in absolute time and resumes at second 30 of the local
    minute.  From 10:30:45 the search returns 10:31:30, from the later
    10:30:59 it returns the earlier 10:31:00. *)
Theorem Next_not_monotone_odd_offset {lz : LocalZone} :
  let zone := FixedZone 30 in
  let t1 := time.Date 2020 1 1 10 30 45 0 zone in
  let t2 := time.Date 2020 1 1 10 30 59 0 zone in
  time.Before t1 t2 = true /\
  Next 20 minute31 t1 = Some (time.Date 2020 1 1 10 31 30 0 zone) /\
  Next 20 minute31 t2 = Some (time.Date 2020 1 1 10 31 0 0 zone) /\
  time.After (time.Date 2020 1 1 10 31 30 0 zone) (time.Date 2020 1 1 10 31 0 0 zone) = true.
Proof. cbv zeta. repeat apply conj; vm_compute; reflexivity. Qed.

(** ** Properties of the two searches *)

(** C1, on the code: in Pacific/Apia the day after December 29, 2011 is
    December 31.  Adding one day to midnight of December 29 gives the same
    instant back, so the day loop of [Next], once on that day with a day
    field that does not accept it, stays there: with the schedule "midnight
    of the first of every month" the search from December 15, 2011, 09:30
    never returns, neither the zero time nor an instant after its argument.
    In a zone with the same offset and no transition it returns January 1,
    2012. *)
Theorem Next_stalls_on_skipped_day {lz : LocalZone} :
  let s := firstOfMonth in
  let t := time.Date 2011 12 15 9 30 0 0 pacificApia in
  let dec29 := time.Date 2011 12 29 0 0 0 0 pacificApia in
  time.AddDate dec29 0 0 1 = dec29 /\
  nextStep s pacificApia pacificApia 2016 (DAY, dec29, true) = Goto (DAY, dec29, true) /\
  (forall fuel, Next fuel s t = None) /\
  Next 100 s (time.Date 2011 12 15 9 30 0 0 (FixedZone (-36000)))
    = Some (time.Date 2012 1 1 0 0 0 0 (FixedZone (-36000))).
Proof.
  cbv zeta. split; [vm_compute; reflexivity|]. split; [vm_compute; reflexivity|].
  split; [|vm_compute; reflexivity].
  intros fuel. unfold Next.
  eapply (run_advance _ _ 40); [vm_compute; reflexivity|]. vm_compute. reflexivity.
Qed.

(** C2, on the code: in Europe/Berlin the hour from 02:00 to 03:00 took
    place twice on October 29, 2023.  [Date] at 02:00 of that day is the
    second 02:00; one second before it the clock reads 02:59:59, of the
    first pass, so the hour loop of [Latest], once at 02:59:59 with an hour
    field that does not accept hour 2, stays there: with the schedule "every
    day at 01:00:00" the search from noon of that day never returns.  In a
    zone with the same offset and no transition it returns 01:00:00 of that
    day. *)
Theorem Latest_stalls_on_repeated_hour {lz : LocalZone} :
  let s := dailyAt1 in
  let t := time.Date 2023 10 29 12 0 0 0 europeBerlin in
  let stuck := time.Add (time.Date 2023 10 29 2 0 0 0 europeBerlin) (- Second_) in
  (time.Hour stuck, time.Minute stuck, time.Second stuck) = (2, 59, 59) /\
  time.Add (time.Date (time.Year stuck) (time.Month stuck) (time.Day stuck) (time.Hour stuck)
                      0 0 0 europeBerlin) (- Second_) = stuck /\
  latestStep s europeBerlin europeBerlin 2018 (HOUR, stuck) = Goto (HOUR, stuck) /\
  (forall fuel, Latest fuel s t = None) /\
  Latest 1000 s (time.Date 2023 10 29 12 0 0 0 (FixedZone 3600))
    = Some (time.Date 2023 10 29 1 0 0 0 (FixedZone 3600)).
Proof.
  cbv zeta. split; [vm_compute; reflexivity|]. split; [vm_compute; reflexivity|].
  split; [vm_compute; reflexivity|]. split; [|vm_compute; reflexivity].
  intros fuel. unfold Latest.
  eapply (run_advance _ _ 40); [vm_compute; reflexivity|]. vm_compute. reflexivity.
Qed.

(** C3, on the code: the schedule "midnight of December 30, 2011" has no
    instant in Pacific/Apia, where that day did not take place, so no
    instant after December 15, 2011, 09:30 qualifies; the search from there
    does not return the zero time: it never returns, by the defect of
    C1. *)
Theorem Next_exhausted_stalls {lz : LocalZone} :
  let s := december30of2011 in
  let t := time.Date 2011 12 15 9 30 0 0 pacificApia in
  noQualifying s t /\ (forall fuel, Next fuel s t = None).
Proof.
  cbv zeta. split.
  - intros u L _ _. change (searchLoc _ _) with pacificApia in L.
    destruct (satisfies december30of2011 u) eqn:S; [exfalso|reflexivity].
    apply satisfies_elim in S. destruct S as ((Y1 & Y2) & _ & M & D & _).
    apply (no_december_30_in_Apia u L). repeat apply conj.
    + apply testbit_bit in Y2; [|vm_compute; discriminate].
      change (2011 - minYear) with 41 in Y2. unfold minYear in Y2. lia.
    + apply (testbit_bit 12); [lia|exact M].
    + rewrite dayMatches_plain in D. cbv zeta in D.
      change (Z.testbit (Dom december30of2011) maxBits) with false in D.
      change (Z.testbit (Dow december30of2011) maxBits) with true in D.
      cbn [orb] in D. apply andb_true_iff in D. destruct D as [D _].
      apply (testbit_bit 30); [lia|exact D].
  - intros fuel. unfold Next.
    eapply (run_advance _ _ 40); [vm_compute; reflexivity|]. vm_compute. reflexivity.
Qed.

(** C8, on the code: in America/Sao_Paulo the clock went from midnight to
    01:00 on November 4, 2018.  With the schedule "every second of hour 23
    of the fourth of the month", [Latest] from 01:30 of that day steps from
    hour 1 to 23:59:59 of November 3 without a look at the day again, and
    returns it, a day the schedule does not accept; [Next] from one second
    before it returns another instant, 23:00:00 of November 4. *)
Theorem Latest_misses_skipped_midnight {lz : LocalZone} :
  let s := fourthAt23 in
  let t := time.Date 2018 11 4 1 30 0 0 americaSaoPaulo in
  let r := time.Date 2018 11 3 23 59 59 0 americaSaoPaulo in
  Latest 100 s t = Some r /\ time.IsZero r = false /\
  time.Day r = 3 /\ dayMatches s r = false /\
  Next 100 s (time.Add r (- Second_)) = Some (time.Date 2018 11 4 23 0 0 0 americaSaoPaulo) /\
  time.Equal (time.Date 2018 11 4 23 0 0 0 americaSaoPaulo) r = false.
Proof. cbv zeta. repeat apply conj; vm_compute; reflexivity. Qed.

(** C10: in every location, an instant that [Next] or [Latest] returns lies
    on a whole second. *)
Theorem results_on_whole_second {lz : LocalZone} (s : SpecSchedule) (t r : Time) :
  NextReturns s t r \/ LatestReturns s t r -> time.Nanosecond r = 0.
Proof.
  intros [[fuel H] | [fuel H]].
  - unfold Next in H.
    refine (run_safe _ _ (fun st => time.Nanosecond (snd (fst st)) = 0)
              (fun r => time.Nanosecond r = 0) _ _ fuel _ r _ H).
    + apply nextStep_whole_Goto.
    + apply nextStep_whole_Return.
    + apply nextStart_props.
  - unfold Latest in H.
    refine (run_safe _ _ (fun st => time.Nanosecond (snd st) = 0)
              (fun r => time.Nanosecond r = 0) _ _ fuel _ r _ H).
    + apply latestStep_whole_Goto.
    + apply latestStep_whole_Return.
    + apply latestStart_props.
Qed.

Lemma results_on_whole_second_witness :
  let t := @time.Date hostUTC 2023 10 29 12 0 0 500 europeBerlin in
  let r := @time.Date hostUTC 2023 10 30 1 0 0 0 europeBerlin in
  (@NextReturns hostUTC dailyAt1 t r \/ @LatestReturns hostUTC dailyAt1 t r) /\
  time.Nanosecond r = 0.
Proof.
  cbv zeta.
  assert (N : @NextReturns hostUTC dailyAt1
                (@time.Date hostUTC 2023 10 29 12 0 0 500 europeBerlin)
                (@time.Date hostUTC 2023 10 30 1 0 0 0 europeBerlin))
    by (exists 100%nat; vm_compute; reflexivity).
  split; [left; exact N|].
  apply (@results_on_whole_second hostUTC dailyAt1 _ _ (or_introl N)).
Defined.
